(** * datasets-server: the splits worker, the queue statistics endpoint
      and the healthcheck, embedded from the Python sources.

    - [splits]       workers/datasets_based/src/datasets_based/workers/splits.py
    - [queue_stats]  src/datasets_preview_backend/routes/queue_stats.py
    - [healthcheck]  e2e/tests/test_healthcheck.py

    Python dictionaries are finite maps ([gmap]) with string keys, Python
    sets are [gset]s, and a call that may raise returns an [outcome]. *)

From Stdlib Require Import ZArith Ascii.
From stdpp Require Import gmap strings list sorting relations pretty.

Local Open Scope string_scope.

(** * Python: outcomes of calls, [str], [sorted] *)

Module Python.

(** What a call does: it returns a value or raises an exception. *)
Inductive outcome (E A : Type) : Type :=
  | Return (a : A)
  | Raise (e : E).
Global Arguments Return {E A} a.
Global Arguments Raise {E A} e.

(** Sequencing: an exception raised by the first call ends the block. *)
Definition bind {E A B} (m : outcome E A) (k : A → outcome E B) : outcome E B :=
  match m with
  | Return a => k a
  | Raise e => Raise e
  end.

Notation "'let*' x ':=' m 'in' k" := (bind m (λ x, k))
  (at level 10, x name, m at level 100, k at level 200, only parsing).

(** An exception object, that is an instance of [BaseException], as far
    as this code observes it: the name of its class, whether it is an
    instance of [Exception] (the class the second [except] clause of
    [compute_splits_response] tests; [KeyboardInterrupt], [SystemExit] and
    [asyncio.CancelledError] are not), whether it is an instance of
    [datasets.data_files.EmptyDatasetError] (the class the first [except]
    clause tests), and its message [str(err)]. *)
Record Exception : Type := mkException {
  exc_class : string;
  exc_isinstance_Exception : bool;
  exc_isinstance_EmptyDatasetError : bool;
  exc_message : string
}.

(** [isinstance(err, Exception)] *)
Definition isinstance_Exception (err : Exception) : bool :=
  exc_isinstance_Exception err.

(** [try: body except C1 as err: h1 except C2 as err: h2 ...], each handler
    ending in a [raise]: the first clause whose class the exception is an
    instance of handles it, and an exception that no clause handles passes
    through ([unhandled]). *)
Fixpoint handle {R} (unhandled : Exception → R)
    (clauses : list ((Exception → bool) * (Exception → R))) (err : Exception) : R :=
  match clauses with
  | [] => unhandled err
  | (isinstance, handler) :: clauses' =>
      if isinstance err then handler err else handle unhandled clauses' err
  end.

Definition try_except {R A} (body : outcome Exception A)
    (unhandled : Exception → R)
    (clauses : list ((Exception → bool) * (Exception → R))) : outcome R A :=
  match body with
  | Return a => Return a
  | Raise err => Raise (handle unhandled clauses err)
  end.

(** [str(x)] on a [str] object is the object itself. *)
Definition str (x : string) : string := x.

(** [x <= y] on [str] objects compares code points lexicographically; a
    [string] here holds the UTF-8 bytes, whose byte-wise order is the same. *)
Definition str_le : relation string := String.le.

(** [sorted(l)] on a list of [str]: ascending and stable. *)
Definition sorted (l : list string) : list string := merge_sort str_le l.

Global Instance str_le_dec : RelDecision str_le := String.le_dec.
Global Instance str_le_po : PartialOrder str_le := String.le_po.
Global Instance str_le_total : Total str_le := String.le_total.

(** [d[key]] on a [dict]: the value, or [KeyError(key)]. *)
Definition KeyError (key : string) : Exception :=
  {| exc_class := "KeyError";
     exc_isinstance_Exception := true;
     exc_isinstance_EmptyDatasetError := false;
     exc_message := "'" +:+ key +:+ "'" |}.

Definition getitem {V} (d : gmap string V) (key : string) : outcome Exception V :=
  match d !! key with
  | Some v => Return v
  | None => Raise (KeyError key)
  end.

(** [default] value of a keyword argument that the caller left out. *)
Definition kwarg {A} (dflt : A) (given : option A) : A :=
  match given with
  | Some a => a
  | None => dflt
  end.

End Python.
Import Python.

(** * The external provider: the [datasets] library *)

Module datasets.

(** [use_auth_token: Union[bool, str, None]] *)
Inductive auth_token : Type :=
  | TokenBool (b : bool)
  | TokenStr (s : string)
  | TokenNone.

(** The two listing calls of the library, as functions of their keyword
    arguments. Each returns a list of names or raises. *)
Record Provider : Type := mkProvider {
  (** [get_dataset_config_names(path, use_auth_token)] *)
  get_dataset_config_names :
    string → auth_token → outcome Exception (list string);
  (** [get_dataset_split_names(path, config_name, use_auth_token)] *)
  get_dataset_split_names :
    string → string → auth_token → outcome Exception (list string)
}.

End datasets.
Import datasets.

(** * libcommon *)

Module libcommon.

(** [http.HTTPStatus] is an [IntEnum]: its members are integers. *)
Definition HTTPStatus : Type := Z.
Definition INTERNAL_SERVER_ERROR : HTTPStatus := 500%Z.
Definition OK : HTTPStatus := 200%Z.

(** Modelled from the spec: [libcommon.exceptions.CustomError] is not
    among the sources. It is the ErrorRecord of the data model,
    [{code, http_status, message, cause?, disclose_cause}]; its
    constructor stores its keyword arguments. *)
Record CustomError : Type := mkCustomError {
  message : string;
  status_code : HTTPStatus;
  code : string;
  cause : option Exception;
  disclose_cause : bool
}.

(** Modelled from the spec: [CustomError.__init__], which is not among the
    sources, stores the five values of the ErrorRecord. *)
Definition CustomError_init (message : string) (status_code : HTTPStatus)
    (code : string) (cause : option Exception) (disclose_cause : bool)
    : CustomError :=
  {| message := message; status_code := status_code; code := code;
     cause := cause; disclose_cause := disclose_cause |}.

(** Modelled from the spec: [libcommon.simple_cache.SplitFullName] is not
    among the sources. It is the identity triple [(dataset, config, split)]
    of the data model, a named tuple. *)
Definition SplitFullName : Type := string * string * string.
Definition mkSplitFullName (dataset config split : string) : SplitFullName :=
  (dataset, config, split).

End libcommon.
Import libcommon.

(** * workers/datasets_based/src/datasets_based/workers/splits.py *)

Module splits.

(** [SplitsWorkerErrorCode = Literal["EmptyDatasetError", "SplitsNamesError"]] *)
Inductive SplitsWorkerErrorCode : Type :=
  | Code_EmptyDatasetError
  | Code_SplitsNamesError.

(** [str(code)] of such a literal. *)
Definition str_code (c : SplitsWorkerErrorCode) : string :=
  match c with
  | Code_EmptyDatasetError => "EmptyDatasetError"
  | Code_SplitsNamesError => "SplitsNamesError"
  end.

(** The classes of exceptions this module defines. *)
Inductive SplitWorkerErrorClass : Type :=
  | SplitWorkerError
  | SplitsNamesError
  | EmptyDatasetError.

(** [SplitWorkerError.__init__]: [disclose_cause] is a keyword argument with
    default [False]; [None] below is a call that does not pass it. *)
Definition SplitWorkerError_init (message : string) (status_code : HTTPStatus)
    (code : SplitsWorkerErrorCode) (cause : option Exception)
    (disclose_cause : option bool) : CustomError :=
  CustomError_init message status_code (str_code code) cause
    (kwarg false disclose_cause).

(** [SplitsNamesError.__init__] *)
Definition SplitsNamesError_init (message : string) (cause : option Exception)
    : CustomError :=
  SplitWorkerError_init message INTERNAL_SERVER_ERROR Code_SplitsNamesError
    cause (Some true).

(** [EmptyDatasetError.__init__] *)
Definition EmptyDatasetError_init (message : string) (cause : option Exception)
    : CustomError :=
  SplitWorkerError_init message INTERNAL_SERVER_ERROR Code_EmptyDatasetError
    cause (Some true).

(** What a function of this module can raise: an exception of the provider
    passing through, or an instance of one of the classes above. *)
Inductive raised : Type :=
  | Raw (err : Exception)
  | Worker (cls : SplitWorkerErrorClass) (e : CustomError).

(** [SplitItem] is a [TypedDict]: at run time a plain [dict] with string
    keys and string values. *)
Abbreviation SplitItem := (gmap string string).

(** [SplitsResponseContent], [Mapping[str, Any]]: a [dict] whose values are
    lists of items. *)
Abbreviation Content := (gmap string (list (gmap string string))).

(** The item the comprehension builds for one [config] and one [split]:
    [{"dataset": dataset, "config": str(config), "split": str(split)}]. *)
Definition split_item (dataset config split : string) : SplitItem :=
  {[ "dataset" := dataset; "config" := str config; "split" := str split ]}.

(** [s["config"]] and [s["split"]] on an item. *)
Definition item_config (s : SplitItem) : string := s !!! "config".
Definition item_split (s : SplitItem) : string := s !!! "split".

(** An item that has the three keys [get_new_splits] reads. *)
Definition has_split_keys (s : SplitItem) : Prop :=
  is_Some (s !! "dataset") ∧ is_Some (s !! "config") ∧ is_Some (s !! "split").

(** [hf_token if hf_token is not None else False] *)
Definition token_or_False (hf_token : option string) : auth_token :=
  match hf_token with
  | Some token => TokenStr token
  | None => TokenBool false
  end.

Section with_provider.
Variable provider : Provider.

(** The inner [for split in get_dataset_split_names(...)] of the
    comprehension, for one [config]. *)
Definition items_of_config (dataset : string) (use_auth_token : auth_token)
    (config : string) : outcome Exception (list SplitItem) :=
  let* split_names :=
    get_dataset_split_names provider dataset config use_auth_token in
  Return (split_item dataset config <$> split_names).

(** The outer [for config in ...]: configs are visited from left to
    right, and the first call that raises ends the comprehension. *)
Fixpoint for_configs (dataset : string) (use_auth_token : auth_token)
    (configs : list string) : outcome Exception (list SplitItem) :=
  match configs with
  | [] => Return []
  | config :: configs' =>
      let* items := items_of_config dataset use_auth_token config in
      let* rest := for_configs dataset use_auth_token configs' in
      Return (items ++ rest)%list
  end.

Definition get_dataset_split_full_names (dataset : string)
    (use_auth_token : auth_token) : outcome Exception (list SplitItem) :=
  let* config_names :=
    get_dataset_config_names provider dataset use_auth_token in
  for_configs dataset use_auth_token (sorted config_names).

Definition compute_splits_response (dataset : string)
    (hf_token : option string) : outcome raised Content :=
  let use_auth_token := token_or_False hf_token in
  let* split_items :=
    try_except (get_dataset_split_full_names dataset use_auth_token) Raw
      [ (exc_isinstance_EmptyDatasetError,
         λ err, Worker EmptyDatasetError
                  (EmptyDatasetError_init "The dataset is empty." (Some err)));
        (isinstance_Exception,
         λ err, Worker SplitsNamesError
                  (SplitsNamesError_init
                     "Cannot get the split names for the dataset." (Some err))) ] in
  Return {[ "splits" := split_items ]}.

(** [err] is the exception of the first listing call that raises: the
    call for the config names, or else the call for the split names of
    some config, the calls for the configs sorted before it having
    returned. *)
Definition first_listing_error (dataset : string)
    (use_auth_token : auth_token) (err : Exception) : Prop :=
  get_dataset_config_names provider dataset use_auth_token = Raise err ∨
  ∃ config_names before config after,
    get_dataset_config_names provider dataset use_auth_token
      = Return config_names ∧
    sorted config_names = (before ++ config :: after)%list ∧
    Forall (λ c, ∃ ss, get_dataset_split_names provider dataset c use_auth_token
                         = Return ss) before ∧
    get_dataset_split_names provider dataset config use_auth_token
      = Raise err.

End with_provider.

(** [SplitsWorker.get_job_type], [SplitsWorker.get_version] *)
Definition get_job_type : string := "/splits".
Definition get_version : string := "2.0.0".

(** [SplitsWorker.compute] *)
Definition compute (provider : Provider) (dataset : string)
    (hf_token : option string) : outcome raised Content :=
  compute_splits_response provider dataset hf_token.

(** The set comprehension of [get_new_splits]: the items are visited from
    left to right, and each one is read at its three keys. *)
Fixpoint new_splits_of (items : list SplitItem)
    : outcome Exception (gset SplitFullName) :=
  match items with
  | [] => Return ∅
  | s :: items' =>
      let* dataset := getitem s "dataset" in
      let* config := getitem s "config" in
      let* split := getitem s "split" in
      let* rest := new_splits_of items' in
      Return ({[ mkSplitFullName dataset config split ]} ∪ rest)
  end.

(** [SplitsWorker.get_new_splits] *)
Definition get_new_splits (content : Content)
    : outcome Exception (gset SplitFullName) :=
  let* splits := getitem content "splits" in
  new_splits_of splits.

End splits.

(** * The job queue *)

Module JobQueue.

(** Modelled from the spec: the queue ([libqueue], [io.queue]) is not among
    the sources. The definitions of this module follow sections 3, 4.1 and
    5 of the design: a queue is the list of its jobs in insertion order,
    which is the order of [created_at]; [enqueue], [claim] and [finish] are
    each one indivisible operation on that list; [count_by_status] is the
    grouped count of the jobs of one type. *)
Inductive Status : Type :=
  | waiting
  | started
  | success
  | error.

Global Instance Status_eq_dec : EqDecision Status.
Proof. solve_decision. Defined.

Definition status_name (st : Status) : string :=
  match st with
  | waiting => "waiting"
  | started => "started"
  | success => "success"
  | error => "error"
  end.

(** Modelled from the spec: a job, with the identity key
    [(job_type, dataset, config?, split?)] and its status. *)
Record Job : Type := mkJob {
  job_type : string;
  dataset : string;
  config : option string;
  split : option string;
  status : Status
}.

Global Instance Job_eq_dec : EqDecision Job.
Proof. solve_decision. Defined.

Definition JobKey : Type := string * string * option string * option string.

Definition job_key (j : Job) : JobKey :=
  (job_type j, dataset j, config j, split j).

Definition set_status (st : Status) (j : Job) : Job :=
  {| job_type := job_type j; dataset := dataset j; config := config j;
     split := split j; status := st |}.

(** Non-terminal: [waiting] or [started]. *)
Definition live (j : Job) : Prop := status j = waiting ∨ status j = started.

Global Instance live_dec j : Decision (live j).
Proof. unfold live. apply _. Defined.

(** A [waiting] job of type [jt]: what [claim jt] selects. *)
Definition claimable (jt : string) (j : Job) : Prop :=
  job_type j = jt ∧ status j = waiting.

Global Instance claimable_dec jt j : Decision (claimable jt j).
Proof. unfold claimable. apply _. Defined.

(** Modelled from the spec: the invariant of the data model, at most one
    non-terminal job per identity key. *)
Definition unique_live_keys (q : list Job) : Prop :=
  NoDup (job_key <$> filter live q).

(** Modelled from the spec: [enqueue] returns the non-terminal job of the
    same key when there is one, and appends a new [waiting] job when there
    is none. *)
Definition enqueue (k : JobKey) (q : list Job) : Job * list Job :=
  match list_find (λ j, job_key j = k ∧ live j) q with
  | Some (_, j) => (j, q)
  | None =>
      let j := {| job_type := k.1.1.1; dataset := k.1.1.2; config := k.1.2;
                  split := k.2; status := waiting |} in
      (j, q ++ [j])%list
  end.

(** Modelled from the spec: [claim] selects the oldest [waiting] job of the
    type, flips it to [started] and returns it; [None] is the empty
    answer. *)
Fixpoint claim (jt : string) (q : list Job) : option Job * list Job :=
  match q with
  | [] => (None, [])
  | j :: q' =>
      if decide (claimable jt j)
      then (Some (set_status started j), set_status started j :: q')
      else let (r, q'') := claim jt q' in (r, j :: q'')
  end.

(** Modelled from the spec: [finish] marks the [started] job of the key
    terminal; there being none is the double-finish error ([None]). *)
Fixpoint finish (k : JobKey) (outcome : Status) (q : list Job)
    : option (list Job) :=
  match q with
  | [] => None
  | j :: q' =>
      if decide (job_key j = k ∧ status j = started)
      then Some (set_status outcome j :: q')
      else (j ::.) <$> finish k outcome q'
  end.

(** Modelled from the spec: [count_by_status], one count per status that
    some job of the type has; an absent status stands for zero. *)
Definition count_by_status (jt : string) (q : list Job) : gmap string nat :=
  foldr (λ j counts,
           if decide (job_type j = jt)
           then <[ status_name (status j) :=
                     S (default 0 (counts !! status_name (status j))) ]> counts
           else counts) ∅ q.

(** The number of jobs of type [jt] in the status [st]. *)
Definition jobs_in_status (jt : string) (st : Status) (q : list Job) : nat :=
  length (filter (λ j, job_type j = jt ∧ status j = st) q).

(** ** Concurrent callers of [claim] *)

(** Modelled from the spec: the callers of [claim] share the queue and
    nothing else (section 5). [pending] are the callers whose call has not
    taken effect yet, [returned] the calls that returned, oldest first, each
    with its caller and its answer. *)
Record System : Type := mkSystem {
  queue : list Job;
  pending : gset nat;
  returned : list (nat * option Job)
}.

(** Modelled from the spec: a [claim] is one indivisible step on the shared
    queue, and the pending callers take their steps in any order. *)
Inductive step (jt : string) : System → System → Prop :=
  | step_claim (s : System) (caller : nat) :
      caller ∈ pending s →
      step jt s
        {| queue := (claim jt (queue s)).2;
           pending := pending s ∖ {[ caller ]};
           returned := (returned s ++ [(caller, (claim jt (queue s)).1)])%list |}.

(** [n] callers, numbered from 0, about to call [claim] on the queue [q]. *)
Definition init (q : list Job) (n : nat) : System :=
  {| queue := q; pending := list_to_set (seq 0 n); returned := [] |}.

(** What holds of every state the callers can reach from [init q n]: the
    calls returned so far got, in the order of their return, the claimable
    jobs of [q] from the oldest on; no caller returned twice; and the
    callers that returned and the ones pending make up the [n]. *)
Definition inv (jt : string) (q : list Job) (n : nat) (s : System) : Prop :=
  filter (claimable jt) (queue s)
    = drop (length (returned s)) (filter (claimable jt) q) ∧
  (returned s).*2
    = (λ p, set_status started <$> (filter (claimable jt) q !! p))
        <$> seq 0 (length (returned s)) ∧
  NoDup (returned s).*1 ∧
  (∀ caller, caller ∈ (returned s).*1 → caller ∉ pending s) ∧
  length (returned s) + size (pending s) = n.

End JobQueue.

(** * src/datasets_preview_backend/routes/queue_stats.py *)

Module queue_stats.
Import JobQueue.

(** [time.struct_time], the fields [strftime] reads here. *)
Record struct_time : Type := mk_struct_time {
  tm_year : Z;
  tm_mon : Z;
  tm_mday : Z;
  tm_hour : Z;
  tm_min : Z;
  tm_sec : Z
}.

(** The conversions [%d] and [%02d] of the C library. *)
Definition fmt_d (z : Z) : string := pretty z.
Definition fmt_02d (z : Z) : string :=
  let s := pretty z in
  if decide (String.length s < 2) then "0" +:+ s else s.

(** [time.strftime(format, t)] for the directives [%Y], [%m], [%d], [%H],
    [%M] and [%S]; every other character is copied. *)
Definition directive (d : ascii) (t : struct_time) : string :=
  if decide (d = "Y"%char) then fmt_d (tm_year t)
  else if decide (d = "m"%char) then fmt_02d (tm_mon t)
  else if decide (d = "d"%char) then fmt_02d (tm_mday t)
  else if decide (d = "H"%char) then fmt_02d (tm_hour t)
  else if decide (d = "M"%char) then fmt_02d (tm_min t)
  else if decide (d = "S"%char) then fmt_02d (tm_sec t)
  else String "%" (String d "").

Fixpoint strftime (format : string) (t : struct_time) : string :=
  match format with
  | "" => ""
  | String c rest =>
      if decide (c = "%"%char)
      then match rest with
           | String d rest' => directive d t +:+ strftime rest' t
           | "" => "%"
           end
      else String c (strftime rest t)
  end.

(** What the endpoint reads from its environment: the jobs of the queue,
    the answer of [time.gmtime()] at the call, and the constant
    [MAX_AGE_SHORT_SECONDS] of [datasets_preview_backend.config]. *)
Record Env : Type := mkEnv {
  env_queue : list Job;
  env_gmtime : struct_time;
  MAX_AGE_SHORT_SECONDS : Z
}.

(** Modelled from the spec: [io.queue.get_dataset_jobs_count_by_status] and
    [get_split_jobs_count_by_status] are not among the sources; they are
    [count_by_status] for the two job types of the base deployment. *)
Definition get_dataset_jobs_count_by_status (env : Env) : gmap string nat :=
  count_by_status "datasets" (env_queue env).
Definition get_split_jobs_count_by_status (env : Env) : gmap string nat :=
  count_by_status "splits" (env_queue env).

(** The values of the [content] dictionary: a dictionary of counts or a
    string. *)
Inductive value : Type :=
  | Counts (counts : gmap string nat)
  | Str (s : string).

(** Modelled from the spec: [routes._utils.get_response] is not among the
    sources; it answers with the given status and the content as the JSON
    body, cacheable for [max_age] seconds. *)
Record Response : Type := mkResponse {
  status_code : Z;
  body : gmap string value;
  max_age : Z
}.

(** Modelled from the spec: [get_response(content, status_code, max_age)],
    which is not among the sources. *)
Definition get_response (content : gmap string value) (status_code max_age : Z)
    : Response :=
  {| status_code := status_code; body := content; max_age := max_age |}.

(** [starlette.requests.Request]; the endpoint does not read it. *)
Record Request : Type := mkRequest {
  request_method : string;
  request_path : string;
  request_headers : list (string * string)
}.

Definition queue_stats_endpoint (env : Env) (_ : Request) : Response :=
  let content : gmap string value :=
    {[ "datasets" := Counts (get_dataset_jobs_count_by_status env);
       "splits" := Counts (get_split_jobs_count_by_status env);
       "created_at" := Str (strftime "%Y-%m-%dT%H:%M:%SZ" (env_gmtime env)) ]} in
  get_response content 200 (MAX_AGE_SHORT_SECONDS env).

(** ** The shape of [created_at] *)

(** ISO 8601, extended format, to the second, in UTC:
    [YYYY-MM-DDThh:mm:ssZ]. *)
Inductive pat : Type :=
  | Digit
  | Lit (c : ascii).

Definition iso8601_pattern : list pat :=
  [ Digit; Digit; Digit; Digit; Lit "-"; Digit; Digit; Lit "-"; Digit; Digit;
    Lit "T"; Digit; Digit; Lit ":"; Digit; Digit; Lit ":"; Digit; Digit;
    Lit "Z" ]%char.

Definition is_digit (c : ascii) : bool := bool_decide (is_Some (Ascii.is_nat c)).

Fixpoint matches (p : list pat) (s : string) : bool :=
  match p, s with
  | [], "" => true
  | Digit :: p', String c s' => is_digit c && matches p' s'
  | Lit l :: p', String c s' => bool_decide (c = l) && matches p' s'
  | _, _ => false
  end.

Definition is_iso8601_utc_seconds (s : string) : bool :=
  matches iso8601_pattern s.

(** The number a string of digits writes. *)
Fixpoint number_go (acc : Z) (s : string) : option Z :=
  match s with
  | "" => Some acc
  | String c s' =>
      match Ascii.is_nat c with
      | Some d => number_go (10 * acc + Z.of_nat d) s'
      | None => None
      end
  end.
Definition number (s : string) : option Z := number_go 0 s.

(** Reading a timestamp of that shape back. *)
Definition parse_iso8601_utc_seconds (s : string) : option struct_time :=
  if is_iso8601_utc_seconds s then
    year ← number (String.substring 0 4 s);
    mon ← number (String.substring 5 2 s);
    mday ← number (String.substring 8 2 s);
    hour ← number (String.substring 11 2 s);
    min ← number (String.substring 14 2 s);
    sec ← number (String.substring 17 2 s);
    Some {| tm_year := year; tm_mon := mon; tm_mday := mday;
            tm_hour := hour; tm_min := min; tm_sec := sec |}
  else None.

(** The range of the answers of [time.gmtime()] for the current time: a
    date of the years 1970 to 9999, in the ranges of [struct_time]. *)
Definition gmtime_range (t : struct_time) : Prop :=
  (1970 ≤ tm_year t ≤ 9999)%Z ∧ (1 ≤ tm_mon t ≤ 12)%Z ∧
  (1 ≤ tm_mday t ≤ 31)%Z ∧ (0 ≤ tm_hour t ≤ 23)%Z ∧
  (0 ≤ tm_min t ≤ 59)%Z ∧ (0 ≤ tm_sec t ≤ 61)%Z.

(** The decimal digit of a number below ten. *)
Definition digit (k : Z) : ascii := pretty_N_char (Z.to_N k).

End queue_stats.

(** * e2e/tests/test_healthcheck.py *)

Module healthcheck.

(** The response the test receives: [response.status_code] and
    [response.text]. *)
Record Response : Type := mkResponse {
  status_code : Z;
  text : string
}.

(** Modelled from the spec: the route [/healthcheck] is not among the
    sources; with the backend reachable it answers 200 with the body
    [ok]. *)
Definition healthcheck_endpoint : Response :=
  {| status_code := 200; text := "ok" |}.

(** The line feed, and whether a text ends with one. *)
Definition newline : string := String (ascii_of_nat 10) "".

Fixpoint ends_with_newline (s : string) : bool :=
  match s with
  | "" => false
  | String c "" => bool_decide (c = ascii_of_nat 10)
  | String _ s' => ends_with_newline s'
  end.

(** [json.dumps(s)] for a string of plain letters: [s] between double
    quotes. *)
Definition json_string (s : string) : string :=
  String (ascii_of_nat 34) s +:+ String (ascii_of_nat 34) "".

(** The two assertions of [test_healthcheck], on the response [poll]
    returned. *)
Definition test_healthcheck (response : Response) : bool :=
  bool_decide (status_code response = 200%Z) &&
  bool_decide (text response = "ok").

End healthcheck.

(** * The data of the examples *)

Module examples.
Import splits JobQueue queue_stats.

(** A provider whose dataset [glue] has the configs [sst2] and [cola],
    listed in that order. *)
Definition glue_provider : Provider :=
  {| get_dataset_config_names := λ path _,
       if decide (path = "glue") then Return ["sst2"; "cola"]
       else Raise (mkException "FileNotFoundError" true false "no such dataset");
     get_dataset_split_names := λ path config _,
       if decide (config = "cola") then Return ["train"; "validation"; "test"]
       else if decide (config = "sst2") then Return ["train"; "test"]
       else Raise (mkException "ValueError" true false "no such config") |}.

(** The same dataset served by a second provider, which lists the configs
    in the other order and ignores the token. *)
Definition glue_mirror : Provider :=
  {| get_dataset_config_names := λ _ _, Return ["sst2"; "cola"];
     get_dataset_split_names := λ _ config _,
       if decide (config = "sst2") then Return ["train"; "test"]
       else Return ["train"; "validation"; "test"] |}.

(** A provider whose dataset [void] has no data, and one whose listing of
    the splits of the second config fails. *)
Definition empty_signal : Exception :=
  mkException "EmptyDatasetError" true true
    "The directory at void doesn't contain any data files".

Definition void_provider : Provider :=
  {| get_dataset_config_names := λ _ _, Raise empty_signal;
     get_dataset_split_names := λ _ _ _, Return [] |}.

Definition connection_error : Exception :=
  mkException "ConnectionError" true false "Couldn't reach the Hub".

(** A provider whose loading script ends the interpreter: [SystemExit] is
    not an instance of [Exception]. *)
Definition system_exit : Exception :=
  mkException "SystemExit" false false "1".

Definition exiting_provider : Provider :=
  {| get_dataset_config_names := λ _ _, Raise system_exit;
     get_dataset_split_names := λ _ _ _, Return [] |}.

Definition flaky_provider : Provider :=
  {| get_dataset_config_names := λ _ _, Return ["b"; "a"];
     get_dataset_split_names := λ _ config _,
       if decide (config = "a") then Return ["train"]
       else Raise connection_error |}.

(** The queue of the statistics scenario of the design: three [datasets]
    jobs, two waiting and one done, and one failed [splits] job. *)
Definition scenario_env : Env :=
  {| env_queue :=
       [ mkJob "datasets" "glue" None None waiting;
         mkJob "splits" "glue" None None error;
         mkJob "datasets" "squad" None None success;
         mkJob "datasets" "imdb" None None waiting ];
     env_gmtime := {| tm_year := 2022; tm_mon := 11; tm_mday := 4;
                      tm_hour := 9; tm_min := 5; tm_sec := 0 |};
     MAX_AGE_SHORT_SECONDS := 10 |}.

(** A queue with two waiting jobs of the type ["/splits"], between jobs
    that [claim "/splits"] must pass over. *)
Definition two_waiting : list Job :=
  [ mkJob "/splits" "glue" None None success;
    mkJob "/splits" "squad" None None waiting;
    mkJob "/first-rows" "squad" (Some "plain_text") (Some "train") waiting;
    mkJob "/splits" "glue" None None waiting ].

End examples.

(** * Further vocabulary *)

Module more.
Import splits queue_stats.

(** The first of the three keys of [get_new_splits] that an item lacks, in
    the order in which [get_new_splits] reads them. *)
Definition first_missing_key (s : SplitItem) : option string :=
  match s !! "dataset", s !! "config", s !! "split" with
  | None, _, _ => Some "dataset"
  | Some _, None, _ => Some "config"
  | Some _, Some _, None => Some "split"
  | Some _, Some _, Some _ => None
  end.

(** The identity triple an item carries: [(s["dataset"], s["config"],
    s["split"])]. *)
Definition item_triple (s : SplitItem) : SplitFullName :=
  mkSplitFullName (s !!! "dataset") (s !!! "config") (s !!! "split").

(** The order of time on the answers of [time.gmtime()]: by year, then
    month, day, hour, minute and second. *)
Definition chrono_le (t1 t2 : struct_time) : Prop :=
  (tm_year t1 < tm_year t2 ∨ tm_year t1 = tm_year t2 ∧
  (tm_mon t1 < tm_mon t2 ∨ tm_mon t1 = tm_mon t2 ∧
  (tm_mday t1 < tm_mday t2 ∨ tm_mday t1 = tm_mday t2 ∧
  (tm_hour t1 < tm_hour t2 ∨ tm_hour t1 = tm_hour t2 ∧
  (tm_min t1 < tm_min t2 ∨ tm_min t1 = tm_min t2 ∧
   tm_sec t1 ≤ tm_sec t2)))))%Z.

(** [glue_provider] listing its configs in the other order. *)
Definition glue_reordered : Provider :=
  {| get_dataset_config_names := λ _ _, Return ["cola"; "sst2"];
     get_dataset_split_names :=
       get_dataset_split_names examples.glue_provider |}.

(** A provider whose configs have no split. *)
Definition hollow_provider : Provider :=
  {| get_dataset_config_names := λ _ _, Return ["b"; "a"];
     get_dataset_split_names := λ _ _ _, Return [] |}.

End more.

(** * Properties of the splits worker *)

Module splits_facts.
Import splits examples.

(** ** [sorted] *)

(** The order of [sorted] is the lexicographic order of the character
    codes: the empty string comes first, and two strings that start with a
    character compare by these characters, then by what follows them. *)
Lemma str_le_nil (s : string) : str_le "" s.
Proof. by destruct s. Qed.

Lemma str_le_cons_nil (a : ascii) (s : string) : ¬ str_le (String a s) "".
Proof. by intros ?. Qed.

Lemma str_le_cons (a b : ascii) (s t : string) :
  str_le (String a s) (String b t) ↔
  (N_of_ascii a < N_of_ascii b)%N ∨ (a = b ∧ str_le s t).
Proof.
  unfold str_le, String.le, String.leb. simpl.
  destruct (Ascii.compare a b) eqn:Hab.
  - apply Ascii.compare_eq_iff in Hab as ->. split; [by right|].
    intros [?%N.lt_irrefl|[_ ?]]; done.
  - unfold Ascii.compare in Hab. apply N.compare_lt_iff in Hab.
    split; [by left|done].
  - unfold Ascii.compare in Hab. apply N.compare_gt_iff in Hab.
    split; [done|]. intros [?|[-> _]]; lia.
Qed.

Example sorted_example :
  sorted ["sst2"; "cola"; "Zeta"; "co"; "10"; "2"] =
  ["10"; "2"; "Zeta"; "co"; "cola"; "sst2"].
Proof. reflexivity. Qed.

Lemma sorted_StronglySorted (l : list string) : StronglySorted str_le (sorted l).
Proof. apply (StronglySorted_merge_sort str_le). Qed.

Lemma sorted_Permutation (l : list string) : sorted l ≡ₚ l.
Proof. apply (merge_sort_Permutation str_le). Qed.

Lemma elem_of_sorted (x : string) (l : list string) : x ∈ sorted l ↔ x ∈ l.
Proof. by rewrite sorted_Permutation. Qed.

Lemma elem_of_sorted_1 (x : string) (l : list string) : x ∈ sorted l → x ∈ l.
Proof. apply elem_of_sorted. Qed.

(** [sorted l] is the one ascending arrangement of [l], so the choice of
    the sorting algorithm does not show in it. *)
Lemma sorted_spec (l l' : list string) :
  StronglySorted str_le l' → l' ≡ₚ l → sorted l = l'.
Proof.
  intros Hsorted Hperm. apply (StronglySorted_unique str_le).
  - apply sorted_StronglySorted.
  - done.
  - by rewrite sorted_Permutation.
Qed.

(** [sorted] returns the same list for every order of the same names. *)
Lemma sorted_unique (l1 l2 : list string) : l1 ≡ₚ l2 → sorted l1 = sorted l2.
Proof.
  intros Hperm. apply (StronglySorted_unique str_le).
  - apply sorted_StronglySorted.
  - apply sorted_StronglySorted.
  - by rewrite !sorted_Permutation.
Qed.

Lemma count_NoDup (x : string) (l : list string) :
  NoDup l → x ∈ l → length (filter (.= x) l) = 1.
Proof.
  induction 1 as [|y l Hy Hl IH]; [by intros ?%elem_of_nil|].
  rewrite filter_cons. intros [->|Hx]%elem_of_cons.
  - rewrite decide_True by done. simpl. f_equal.
    apply length_zero_iff_nil, elem_of_nil_inv.
    by intros z [-> ?]%list_elem_of_filter.
  - destruct (decide (y = x)) as [->|]; [done|]. by apply IH.
Qed.


(** ** The comprehension of [get_dataset_split_full_names] *)

Lemma split_item_dataset d c s : split_item d c s !! "dataset" = Some d.
Proof. done. Qed.
Lemma split_item_config d c s : split_item d c s !! "config" = Some (str c).
Proof. done. Qed.
Lemma split_item_split d c s : split_item d c s !! "split" = Some (str s).
Proof. done. Qed.
Lemma item_config_split_item d c s : item_config (split_item d c s) = c.
Proof. done. Qed.
Lemma item_split_split_item d c s : item_split (split_item d c s) = s.
Proof. done. Qed.

Lemma split_item_dom d c s :
  dom (split_item d c s) = ({[ "dataset"; "config"; "split" ]} : gset string).
Proof. unfold split_item. rewrite !dom_insert_L, dom_singleton_L. set_solver. Qed.

Example glue_split_full_names :
  get_dataset_split_full_names glue_provider "glue" (TokenBool false) =
  Return [ split_item "glue" "cola" "train"; split_item "glue" "cola" "validation";
           split_item "glue" "cola" "test"; split_item "glue" "sst2" "train";
           split_item "glue" "sst2" "test" ].
Proof. reflexivity. Qed.

Section with_provider.
Variable provider : Provider.
Variable dataset : string.
Variable use_auth_token : auth_token.

Local Abbreviation split_names config :=
  (get_dataset_split_names provider dataset config use_auth_token).
Local Abbreviation for_configs' := (for_configs provider dataset use_auth_token).

Lemma items_of_config_Return config items :
  items_of_config provider dataset use_auth_token config = Return items ↔
  ∃ ss, split_names config = Return ss ∧ items = split_item dataset config <$> ss.
Proof.
  unfold items_of_config, bind. destruct (split_names config) as [ss|err].
  - split.
    + intros [= <-]. by exists ss.
    + by intros (ss' & [= <-] & ->).
  - split; [done | intros (? & [=] & _)].
Qed.

Lemma items_of_config_Raise config err :
  items_of_config provider dataset use_auth_token config = Raise err ↔
  split_names config = Raise err.
Proof.
  unfold items_of_config, bind.
  destruct (split_names config); split; intros [=]; by subst.
Qed.

Lemma for_configs_cons config configs :
  for_configs' (config :: configs) =
  bind (items_of_config provider dataset use_auth_token config) (λ items,
    bind (for_configs' configs) (λ rest, Return (items ++ rest)%list)).
Proof. done. Qed.

Lemma for_configs_cons_Return config configs ss rest :
  split_names config = Return ss →
  for_configs' configs = Return rest →
  for_configs' (config :: configs) =
    Return ((split_item dataset config <$> ss) ++ rest)%list.
Proof.
  intros Hss Hrest. rewrite for_configs_cons.
  unfold items_of_config. by rewrite Hss, Hrest.
Qed.

Lemma for_configs_cons_inv config configs items :
  for_configs' (config :: configs) = Return items →
  ∃ ss rest, split_names config = Return ss ∧
             for_configs' configs = Return rest ∧
             items = ((split_item dataset config <$> ss) ++ rest)%list.
Proof.
  rewrite for_configs_cons. unfold items_of_config, bind.
  destruct (split_names config) as [ss|]; [|done].
  destruct (for_configs' configs) as [rest|]; [|done].
  intros [= <-]. by exists ss, rest.
Qed.

(** The comprehension returns when every listing call returns, and then
    it is the concatenation, config after config, of the items of the
    names each call returned. *)
Lemma for_configs_Return configs items :
  for_configs' configs = Return items ↔
  ∃ sss, Forall2 (λ c ss, split_names c = Return ss) configs sss ∧
         items = mjoin (zip_with (λ c ss, split_item dataset c <$> ss) configs sss).
Proof.
  split.
  - revert items. induction configs as [|c cs IH]; intros items.
    + intros [= <-]. exists []. by split; [constructor|].
    + intros (ss & rest & Hss & Hrest & ->)%for_configs_cons_inv.
      destruct (IH _ Hrest) as (sss & Hall & ->).
      exists (ss :: sss). by split; [constructor|].
  - intros (sss & Hall & ->).
    induction Hall as [|c ss cs sss Hss Hall IH]; [done|].
    by apply for_configs_cons_Return.
Qed.

(** The comprehension raises [err] when some listing call raises [err]
    and the calls for the configs before it all returned. *)
Lemma for_configs_Raise configs err :
  for_configs' configs = Raise err ↔
  ∃ before config after,
    configs = (before ++ config :: after)%list ∧
    Forall (λ c, ∃ ss, split_names c = Return ss) before ∧
    split_names config = Raise err.
Proof.
  split.
  - induction configs as [|c cs IH]; [done|].
    rewrite for_configs_cons. unfold items_of_config, bind at 1 2.
    destruct (split_names c) as [ss|err'] eqn:Hss.
    + unfold bind. destruct (for_configs' cs) as [rest|err'] eqn:Hcs; [done|].
      intros [= ->]. destruct (IH eq_refl) as (before & c' & after & -> & Hbefore & Hc').
      exists (c :: before), c', after. split_and!; [done| |done].
      constructor; [by exists ss|done].
    + intros [= ->]. exists [], c, cs. by split_and!.
  - intros (before & c & after & -> & Hbefore & Hc).
    induction Hbefore as [|b before [ss Hss] _ IH]; cbn [app].
    + rewrite for_configs_cons. unfold items_of_config. by rewrite Hc.
    + rewrite for_configs_cons. unfold items_of_config. by rewrite Hss, IH.
Qed.

(** An item is in the result exactly when it was built from a config
    name of the list and a split name returned for it. *)
Lemma elem_of_for_configs configs items (it : SplitItem) :
  for_configs' configs = Return items →
  it ∈ items ↔
  ∃ c ss s, c ∈ configs ∧ split_names c = Return ss ∧ s ∈ ss ∧
            it = split_item dataset c s.
Proof.
  revert items. induction configs as [|c cs IH]; intros items.
  - intros [= <-]. split; [by intros ?%elem_of_nil|].
    by intros (? & ? & ? & ?%elem_of_nil & _).
  - intros (ss & rest & Hss & Hrest & ->)%for_configs_cons_inv.
    rewrite elem_of_app, list_elem_of_fmap, (IH _ Hrest). split.
    + intros [(s & -> & Hs)|(c' & ss' & s & Hc' & Hss' & Hs & ->)].
      * exists c, ss, s. split_and!; [left|done..].
      * exists c', ss', s. split_and!; [by right|done..].
    + intros (c' & ss' & s & Hc' & Hss' & Hs & ->).
      apply elem_of_cons in Hc' as [->|Hc'].
      * left. exists s. split; [done|]. congruence.
      * right. by exists c', ss', s.
Qed.

(** Over a sorted list of configs, the configs of the items ascend. *)
Lemma for_configs_sorted configs items :
  StronglySorted str_le configs →
  for_configs' configs = Return items →
  StronglySorted str_le (item_config <$> items).
Proof.
  intros Hsorted. revert items.
  induction Hsorted as [|c cs Hcs IH Hle]; intros items.
  - intros [= <-]. constructor.
  - intros (ss & rest & Hss & Hrest & ->)%for_configs_cons_inv.
    rewrite fmap_app. apply StronglySorted_app. split_and!.
    + intros c1 c2 (it1 & -> & (s & -> & _)%list_elem_of_fmap)%list_elem_of_fmap
                   (it2 & -> & Hit2)%list_elem_of_fmap.
      apply (elem_of_for_configs _ _ _ Hrest) in Hit2
        as (c' & ? & ? & Hc' & _ & _ & ->).
      rewrite !item_config_split_item.
      rewrite Forall_forall in Hle. by apply Hle.
    + rewrite <-list_fmap_compose.
      clear. induction ss as [|s ss IHss]; [constructor|].
      rewrite fmap_cons. constructor; [done|].
      apply Forall_forall. intros c' (s' & -> & _)%list_elem_of_fmap.
      simpl. by rewrite !item_config_split_item.
    + by apply IH.
Qed.

(** The splits of the items of one config are the names the provider
    returned for it, in that order, once for each time the config is in
    the list. *)
Lemma for_configs_splits_of_config configs items config ss :
  for_configs' configs = Return items →
  split_names config = Return ss →
  item_split <$> filter (λ it, item_config it = config) items =
  mjoin (replicate (length (filter (.= config) configs)) ss).
Proof.
  intros Hitems Hss. revert items Hitems.
  induction configs as [|c cs IH]; intros items.
  - by intros [= <-].
  - intros (ss' & rest & Hss' & Hrest & ->)%for_configs_cons_inv.
    rewrite filter_app, fmap_app, (IH _ Hrest), filter_cons.
    destruct (decide (c = config)) as [->|Hne].
    + rewrite Hss in Hss'. injection Hss' as <-. simpl. f_equal.
      clear. induction ss as [|s ss IHss]; [done|].
      rewrite fmap_cons, filter_cons_True by done.
      by rewrite fmap_cons, IHss, item_split_split_item.
    + replace (filter _ (split_item dataset c <$> ss')) with (@nil SplitItem); [done|].
      clear -Hne. induction ss' as [|s ss' IHss]; [done|].
      rewrite fmap_cons, filter_cons_False; [done|].
      by rewrite item_config_split_item.
Qed.

Lemma get_dataset_split_full_names_Raise err :
  get_dataset_split_full_names provider dataset use_auth_token = Raise err ↔
  first_listing_error provider dataset use_auth_token err.
Proof.
  unfold get_dataset_split_full_names, first_listing_error, bind.
  destruct (get_dataset_config_names _ _ _) as [cs|err'].
  - rewrite for_configs_Raise. split.
    + intros (before & c & after & ? & ? & ?). right. by exists cs, before, c, after.
    + intros [[=]|(cs' & before & c & after & [= <-] & ? & ? & ?)].
      by exists before, c, after.
  - split.
    + intros [= ->]. by left.
    + by intros [[= ->]|(? & ? & ? & ? & [=] & _)].
Qed.

Lemma get_dataset_split_full_names_Return items :
  get_dataset_split_full_names provider dataset use_auth_token = Return items ↔
  ∃ config_names,
    get_dataset_config_names provider dataset use_auth_token = Return config_names ∧
    for_configs' (sorted config_names) = Return items.
Proof.
  unfold get_dataset_split_full_names, bind.
  destruct (get_dataset_config_names _ _ _) as [cs|err'].
  - split; [by exists cs|]. by intros (? & [= <-] & ?).
  - split; [done|]. by intros (? & [=] & _).
Qed.

End with_provider.

(** ** Order of the result *)

(** C3. When [get_dataset_split_full_names] returns, the configs of its
    items, read from first to last, are in ascending lexicographic order,
    every one of them is a config name the provider listed, and for each
    listed config the splits of its items are exactly the split names the
    provider returned for it, in the provider's order (repeated when the
    provider listed the config name more than once). *)
Theorem get_dataset_split_full_names_order
    (provider : Provider) (dataset : string) (use_auth_token : auth_token)
    (items : list SplitItem) :
  get_dataset_split_full_names provider dataset use_auth_token = Return items →
  StronglySorted str_le (item_config <$> items) ∧
  ∃ config_names,
    get_dataset_config_names provider dataset use_auth_token = Return config_names ∧
    (∀ it, it ∈ items → item_config it ∈ config_names) ∧
    ∀ config, config ∈ config_names →
      ∃ split_names,
        get_dataset_split_names provider dataset config use_auth_token
          = Return split_names ∧
        item_split <$> filter (λ it, item_config it = config) items =
        mjoin (replicate (length (filter (.= config) config_names)) split_names).
Proof.
  intros (cs & Hcs & Hitems)%get_dataset_split_full_names_Return. split.
  - eapply for_configs_sorted; [apply sorted_StronglySorted|done].
  - exists cs. split_and!; [done|..].
    + intros it (c & ss & s & Hc & _ & _ & ->)%(elem_of_for_configs _ _ _ _ _ _ Hitems).
      rewrite item_config_split_item. by apply elem_of_sorted.
    + intros c Hc.
      destruct (proj1 (for_configs_Return _ _ _ _ _) Hitems) as (sss & Hall & _).
      apply elem_of_sorted, list_elem_of_lookup in Hc as [i Hi].
      destruct (Forall2_lookup_l _ _ _ _ _ Hall Hi) as (ss & _ & Hss).
      exists ss. split; [done|].
      rewrite (for_configs_splits_of_config _ _ _ _ _ _ _ Hitems Hss).
      by rewrite (sorted_Permutation cs).
Qed.

Lemma get_dataset_split_full_names_order_witness :
  StronglySorted str_le
    (item_config <$>
       [ split_item "glue" "cola" "train"; split_item "glue" "cola" "validation";
         split_item "glue" "cola" "test"; split_item "glue" "sst2" "train";
         split_item "glue" "sst2" "test" ]).
Proof.
  apply (get_dataset_split_full_names_order glue_provider "glue" (TokenBool false)).
  exact glue_split_full_names.
Defined.

(** When the provider lists each config name once, the splits of the items
    of a config are the provider's list for it. *)
Corollary get_dataset_split_full_names_order_NoDup
    (provider : Provider) (dataset : string) (use_auth_token : auth_token)
    (items : list SplitItem) (config_names split_names : list string)
    (config : string) :
  get_dataset_split_full_names provider dataset use_auth_token = Return items →
  get_dataset_config_names provider dataset use_auth_token = Return config_names →
  NoDup config_names →
  config ∈ config_names →
  get_dataset_split_names provider dataset config use_auth_token
    = Return split_names →
  item_split <$> filter (λ it, item_config it = config) items = split_names.
Proof.
  intros (cs & Hcs' & Hitems)%get_dataset_split_full_names_Return Hcs Hnodup Hc Hss.
  rewrite Hcs in Hcs'. injection Hcs' as <-.
  rewrite (for_configs_splits_of_config _ _ _ _ _ _ _ Hitems Hss).
  rewrite (sorted_Permutation config_names).
  rewrite (count_NoDup _ _ Hnodup Hc). simpl. apply app_nil_r.
Qed.

(** ** Content of the items *)

(** C10. Every item of the list [get_dataset_split_full_names] returns has
    the [dataset] argument under ["dataset"], and under ["config"] and
    ["split"] the [str] of a config name the provider listed and of a split
    name the provider returned for that config. *)
Theorem get_dataset_split_full_names_items
    (provider : Provider) (dataset : string) (use_auth_token : auth_token)
    (items : list SplitItem) (it : SplitItem) :
  get_dataset_split_full_names provider dataset use_auth_token = Return items →
  it ∈ items →
  it !! "dataset" = Some dataset ∧
  ∃ config_names config split_names split,
    get_dataset_config_names provider dataset use_auth_token = Return config_names ∧
    config ∈ config_names ∧
    get_dataset_split_names provider dataset config use_auth_token
      = Return split_names ∧
    split ∈ split_names ∧
    it !! "config" = Some (str config) ∧
    it !! "split" = Some (str split) ∧
    dom it = {[ "dataset"; "config"; "split" ]}.
Proof.
  intros (cs & Hcs & Hitems)%get_dataset_split_full_names_Return
         (c & ss & s & Hc & Hss & Hs & ->)%(elem_of_for_configs _ _ _ _ _ _ Hitems).
  split; [apply split_item_dataset|].
  exists cs, c, ss, s. rewrite elem_of_sorted in Hc.
  split_and!; done || apply split_item_dom.
Qed.

Lemma get_dataset_split_full_names_items_witness :
  (split_item "glue" "sst2" "test" : SplitItem) !! "dataset" = Some "glue".
Proof.
  refine (proj1 (get_dataset_split_full_names_items glue_provider "glue"
                   (TokenBool false) _ _ glue_split_full_names _)).
  do 4 apply list_elem_of_further. apply list_elem_of_here.
Defined.

(** ** Errors *)

(** C9. A [SplitWorkerError] built without [disclose_cause] has
    [disclose_cause = False], whatever the message, status code, code and
    cause, which it stores as given; a call that passes the flag gets the
    flag it passes; and the two subclasses are the ones that pass [True]. *)
Theorem SplitWorkerError_disclose_cause_default
    (message : string) (status_code : HTTPStatus)
    (code : SplitsWorkerErrorCode) (cause : option Exception) :
  SplitWorkerError_init message status_code code cause None =
    {| libcommon.message := message; libcommon.status_code := status_code;
       libcommon.code := str_code code; libcommon.cause := cause;
       libcommon.disclose_cause := false |} ∧
  (∀ flag, disclose_cause
             (SplitWorkerError_init message status_code code cause (Some flag))
           = flag) ∧
  disclose_cause (SplitsNamesError_init message cause) = true ∧
  disclose_cause (EmptyDatasetError_init message cause) = true.
Proof. by split_and!. Qed.

Lemma SplitsNamesError_init_eq message cause :
  SplitsNamesError_init message cause =
    {| libcommon.message := message; libcommon.status_code := 500%Z;
       libcommon.code := "SplitsNamesError"; libcommon.cause := cause;
       libcommon.disclose_cause := true |}.
Proof. done. Qed.

Lemma EmptyDatasetError_init_eq message cause :
  EmptyDatasetError_init message cause =
    {| libcommon.message := message; libcommon.status_code := 500%Z;
       libcommon.code := "EmptyDatasetError"; libcommon.cause := cause;
       libcommon.disclose_cause := true |}.
Proof. done. Qed.

(** What [compute_splits_response] does with the outcome of
    [get_dataset_split_full_names]. *)
Lemma compute_splits_response_Raise provider dataset hf_token err :
  get_dataset_split_full_names provider dataset (token_or_False hf_token)
    = Raise err →
  compute_splits_response provider dataset hf_token =
    if exc_isinstance_EmptyDatasetError err
    then Raise (Worker EmptyDatasetError
                  (EmptyDatasetError_init "The dataset is empty." (Some err)))
    else if exc_isinstance_Exception err
    then Raise (Worker SplitsNamesError
                  (SplitsNamesError_init
                     "Cannot get the split names for the dataset." (Some err)))
    else Raise (Raw err).
Proof.
  unfold compute_splits_response, isinstance_Exception. intros ->. simpl.
  by destruct (exc_isinstance_EmptyDatasetError err),
              (exc_isinstance_Exception err).
Qed.

Lemma compute_splits_response_Return provider dataset hf_token items :
  get_dataset_split_full_names provider dataset (token_or_False hf_token)
    = Return items →
  compute_splits_response provider dataset hf_token =
    Return {[ "splits" := items ]}.
Proof. unfold compute_splits_response. by intros ->. Qed.

(** C1. When the first listing call that raises inside
    [compute_splits_response] raises the provider's empty-dataset signal,
    [compute_splits_response] raises an [EmptyDatasetError] whose code is
    ["EmptyDatasetError"], whose status is 500 and whose [disclose_cause]
    is true; its cause is the provider's exception. *)
Theorem compute_splits_response_empty_dataset
    (provider : Provider) (dataset : string) (hf_token : option string)
    (err : Exception) :
  first_listing_error provider dataset (token_or_False hf_token) err →
  exc_isinstance_EmptyDatasetError err = true →
  ∃ e, compute_splits_response provider dataset hf_token
         = Raise (Worker EmptyDatasetError e) ∧
       code e = "EmptyDatasetError" ∧
       status_code e = 500%Z ∧
       disclose_cause e = true ∧
       cause e = Some err ∧
       message e = "The dataset is empty.".
Proof.
  intros Herr%get_dataset_split_full_names_Raise Hempty.
  rewrite (compute_splits_response_Raise _ _ _ _ Herr), Hempty.
  eexists. by split_and!.
Qed.

Lemma compute_splits_response_empty_dataset_witness :
  ∃ e, compute_splits_response void_provider "void" None
         = Raise (Worker EmptyDatasetError e) ∧
       code e = "EmptyDatasetError" ∧
       status_code e = 500%Z ∧
       disclose_cause e = true ∧
       cause e = Some empty_signal ∧
       message e = "The dataset is empty.".
Proof.
  apply (compute_splits_response_empty_dataset void_provider "void" None empty_signal).
  - left. reflexivity.
  - reflexivity.
Defined.

(** C2 does not hold of every exception. The second clause,
    [except Exception], lets through what is not an instance of
    [Exception]: when the provider's call raises [SystemExit],
    [compute_splits_response] raises that [SystemExit] itself, and no
    [SplitsNamesError]. *)
Lemma compute_splits_response_names_error_counterexample :
  first_listing_error exiting_provider "exit" (token_or_False None) system_exit ∧
  exc_isinstance_EmptyDatasetError system_exit = false ∧
  compute_splits_response exiting_provider "exit" None = Raise (Raw system_exit) ∧
  ∀ e, compute_splits_response exiting_provider "exit" None
         ≠ Raise (Worker SplitsNamesError e).
Proof.
  split_and!; [by left|done|done|]. by intros e.
Qed.

(** C2, as the code has it. When the first listing call that raises inside
    [compute_splits_response] raises an instance of [Exception] that is not
    the empty-dataset signal, [compute_splits_response] raises a
    [SplitsNamesError] whose code is ["SplitsNamesError"], whose status is
    500 and whose [disclose_cause] is true, with the provider's exception as
    its cause. [compute_splits_response] raises an exception of the
    provider itself only when that exception is not an instance of
    [Exception] (as [KeyboardInterrupt] and [SystemExit] are not), and not
    the empty-dataset signal. *)
Theorem compute_splits_response_names_error
    (provider : Provider) (dataset : string) (hf_token : option string) :
  (∀ err : Exception,
     first_listing_error provider dataset (token_or_False hf_token) err →
     exc_isinstance_EmptyDatasetError err = false →
     exc_isinstance_Exception err = true →
     ∃ e, compute_splits_response provider dataset hf_token
            = Raise (Worker SplitsNamesError e) ∧
          code e = "SplitsNamesError" ∧
          status_code e = 500%Z ∧
          disclose_cause e = true ∧
          cause e = Some err ∧
          message e = "Cannot get the split names for the dataset.") ∧
  (∀ err : Exception,
     compute_splits_response provider dataset hf_token = Raise (Raw err) →
     first_listing_error provider dataset (token_or_False hf_token) err ∧
     exc_isinstance_Exception err = false ∧
     exc_isinstance_EmptyDatasetError err = false) ∧
  (∀ r, compute_splits_response provider dataset hf_token = Raise r →
     ∃ err, first_listing_error provider dataset (token_or_False hf_token) err ∧
       r = if exc_isinstance_EmptyDatasetError err
           then Worker EmptyDatasetError
                  (EmptyDatasetError_init "The dataset is empty." (Some err))
           else if exc_isinstance_Exception err
           then Worker SplitsNamesError
                  (SplitsNamesError_init
                     "Cannot get the split names for the dataset." (Some err))
           else Raw err).
Proof.
  split_and!.
  - intros err Herr%get_dataset_split_full_names_Raise Hother Hexception.
    rewrite (compute_splits_response_Raise _ _ _ _ Herr), Hother, Hexception.
    eexists. by split_and!.
  - intros err.
    destruct (get_dataset_split_full_names provider dataset (token_or_False hf_token))
      as [items|err'] eqn:Hnames.
    + by rewrite (compute_splits_response_Return _ _ _ _ Hnames).
    + rewrite (compute_splits_response_Raise _ _ _ _ Hnames).
      apply get_dataset_split_full_names_Raise in Hnames.
      destruct (exc_isinstance_EmptyDatasetError err') eqn:Hempty; [done|].
      destruct (exc_isinstance_Exception err') eqn:Hexception; [done|].
      by intros [= <-].
  - intros r.
    destruct (get_dataset_split_full_names provider dataset (token_or_False hf_token))
      as [items|err] eqn:Hnames.
    + by rewrite (compute_splits_response_Return _ _ _ _ Hnames).
    + rewrite (compute_splits_response_Raise _ _ _ _ Hnames).
      apply get_dataset_split_full_names_Raise in Hnames.
      exists err. split; [done|].
      destruct (exc_isinstance_EmptyDatasetError err),
               (exc_isinstance_Exception err); congruence.
Qed.

Lemma compute_splits_response_names_error_witness :
  ∃ e, compute_splits_response flaky_provider "flaky" (Some "hf_secret")
         = Raise (Worker SplitsNamesError e) ∧
       code e = "SplitsNamesError" ∧
       status_code e = 500%Z ∧
       disclose_cause e = true ∧
       cause e = Some connection_error ∧
       message e = "Cannot get the split names for the dataset.".
Proof.
  apply (proj1 (compute_splits_response_names_error flaky_provider "flaky"
                  (Some "hf_secret")) connection_error).
  - right. exists ["b"; "a"], ["a"], "b", [].
    split_and!; [reflexivity | reflexivity | | reflexivity].
    constructor; [|constructor]. exists ["train"]. reflexivity.
  - reflexivity.
  - reflexivity.
Defined.

(** ** Determinism *)

(** The comprehension depends on the provider only through the outcomes of
    the listing calls it makes. *)
Lemma for_configs_agree (p1 p2 : Provider) (dataset : string)
    (a1 a2 : auth_token) (configs : list string) :
  (∀ c, c ∈ configs →
     get_dataset_split_names p1 dataset c a1 =
     get_dataset_split_names p2 dataset c a2) →
  for_configs p1 dataset a1 configs = for_configs p2 dataset a2 configs.
Proof.
  induction configs as [|c cs IH]; intros Hagree; [done|].
  rewrite !for_configs_cons. unfold items_of_config.
  rewrite (Hagree c) by left. rewrite IH; [done|].
  intros c' Hc'. apply Hagree. by right.
Qed.

Lemma for_configs_total (p : Provider) (dataset : string) (a : auth_token)
    (configs : list string) :
  (∀ c, c ∈ configs → ∃ ss, get_dataset_split_names p dataset c a = Return ss) →
  ∃ items, for_configs p dataset a configs = Return items.
Proof.
  induction configs as [|c cs IH]; intros Hall; [by exists []|].
  destruct (Hall c) as [ss Hss]; [left|].
  destruct IH as [rest Hrest]; [intros c' Hc'; apply Hall; by right|].
  eexists. by apply for_configs_cons_Return.
Qed.

(** C7. Two runs of [compute_splits_response] for a dataset, against
    providers (and with tokens) that may differ, in which the provider
    returns the same config names and, for each of them, the same split
    names, both return, and return the same content. *)
Theorem compute_splits_response_deterministic
    (p1 p2 : Provider) (dataset : string) (hf_token1 hf_token2 : option string)
    (config_names : list string) :
  get_dataset_config_names p1 dataset (token_or_False hf_token1)
    = Return config_names →
  get_dataset_config_names p2 dataset (token_or_False hf_token2)
    = Return config_names →
  (∀ config, config ∈ config_names →
     ∃ split_names,
       get_dataset_split_names p1 dataset config (token_or_False hf_token1)
         = Return split_names ∧
       get_dataset_split_names p2 dataset config (token_or_False hf_token2)
         = Return split_names) →
  ∃ content,
    compute_splits_response p1 dataset hf_token1 = Return content ∧
    compute_splits_response p2 dataset hf_token2 = Return content.
Proof.
  intros Hcs1 Hcs2 Hsplits.
  destruct (for_configs_total p1 dataset (token_or_False hf_token1)
              (sorted config_names)) as [items Hitems].
  { intros c Hc%elem_of_sorted_1. destruct (Hsplits c Hc) as (ss & Hss & _).
    by exists ss. }
  exists {[ "splits" := items ]}. split.
  - apply compute_splits_response_Return, get_dataset_split_full_names_Return.
    by exists config_names.
  - apply compute_splits_response_Return, get_dataset_split_full_names_Return.
    exists config_names. split; [done|]. rewrite <-Hitems. symmetry.
    apply for_configs_agree. intros c Hc%elem_of_sorted_1.
    destruct (Hsplits c Hc) as (ss & -> & ->). done.
Qed.

Lemma compute_splits_response_deterministic_witness :
  ∃ content,
    compute_splits_response glue_provider "glue" None = Return content ∧
    compute_splits_response glue_mirror "glue" (Some "hf_secret") = Return content.
Proof.
  apply (compute_splits_response_deterministic glue_provider glue_mirror "glue"
           None (Some "hf_secret") ["sst2"; "cola"]).
  - reflexivity.
  - reflexivity.
  - intros config [->|[->|[]%elem_of_nil]%elem_of_cons]%elem_of_cons.
    + exists ["train"; "test"]. split; reflexivity.
    + exists ["train"; "validation"; "test"]. split; reflexivity.
Defined.

(** The content does not depend on the order in which the provider lists
    the config names either. *)
Lemma compute_splits_response_Permutation
    (p1 p2 : Provider) (dataset : string) (hf_token : option string)
    (cs1 cs2 : list string) :
  get_dataset_config_names p1 dataset (token_or_False hf_token) = Return cs1 →
  get_dataset_config_names p2 dataset (token_or_False hf_token) = Return cs2 →
  cs1 ≡ₚ cs2 →
  (∀ config, get_dataset_split_names p1 dataset config (token_or_False hf_token) =
             get_dataset_split_names p2 dataset config (token_or_False hf_token)) →
  compute_splits_response p1 dataset hf_token =
  compute_splits_response p2 dataset hf_token.
Proof.
  intros Hcs1 Hcs2 Hperm Hsplits.
  unfold compute_splits_response, get_dataset_split_full_names. simpl.
  rewrite Hcs1, Hcs2. simpl.
  rewrite <-(sorted_unique _ _ Hperm).
  by rewrite (for_configs_agree p1 p2 _ _ (token_or_False hf_token)).
Qed.

(** ** The identity set of a content *)

Lemma getitem_Some {V} (d : gmap string V) key v :
  d !! key = Some v → getitem d key = Return v.
Proof. unfold getitem. by intros ->. Qed.

Lemma getitem_None {V} (d : gmap string V) key :
  d !! key = None → getitem d key = Raise (KeyError key).
Proof. unfold getitem. by intros ->. Qed.

Lemma new_splits_of_cons (s : SplitItem) items dataset config split rest :
  s !! "dataset" = Some dataset →
  s !! "config" = Some config →
  s !! "split" = Some split →
  new_splits_of items = Return rest →
  new_splits_of (s :: items) =
    Return ({[ mkSplitFullName dataset config split ]} ∪ rest).
Proof.
  intros Hd Hc Hs Hrest. simpl.
  rewrite (getitem_Some _ _ _ Hd), (getitem_Some _ _ _ Hc), (getitem_Some _ _ _ Hs).
  simpl. by rewrite Hrest.
Qed.

(** On items that have the three keys the comprehension returns, and a
    triple is in the set exactly when an item carries it. *)
Lemma new_splits_of_spec (items : list SplitItem) :
  Forall has_split_keys items →
  ∃ new_splits : gset SplitFullName,
    new_splits_of items = Return new_splits ∧
    ∀ dataset config split,
      (dataset, config, split) ∈ new_splits ↔
      ∃ s, s ∈ items ∧ s !! "dataset" = Some dataset ∧
           s !! "config" = Some config ∧ s !! "split" = Some split.
Proof.
  induction 1 as [|s items ([d Hd] & [c Hc] & [sp Hsp]) _ (rest & Hrest & IH)].
  - exists ∅. split; [done|]. intros d c sp. split; [set_solver|].
    by intros (? & ?%elem_of_nil & _).
  - exists ({[ mkSplitFullName d c sp ]} ∪ rest).
    split; [by apply new_splits_of_cons|].
    intros d' c' sp'. rewrite elem_of_union, elem_of_singleton, IH. split.
    + intros [[= -> -> ->]|(s' & Hs' & ?)].
      * exists s. split_and!; [left|done..].
      * exists s'. split_and!; [by right|tauto..].
    + intros (s' & [->|Hs']%elem_of_cons & Hd' & Hc' & Hsp').
      * left. unfold mkSplitFullName. congruence.
      * right. by exists s'.
Qed.

(** C4. On a content whose ["splits"] is a list of items that each have the
    keys ["dataset"], ["config"] and ["split"], [get_new_splits] returns a
    set, and a triple [(dataset, config, split)] is in that set if and only
    if some item of the list carries these three values. *)
Theorem get_new_splits_identity_set (content : Content) (splits : list SplitItem) :
  content !! "splits" = Some splits →
  Forall has_split_keys splits →
  ∃ new_splits : gset SplitFullName,
    get_new_splits content = Return new_splits ∧
    ∀ dataset config split,
      (dataset, config, split) ∈ new_splits ↔
      ∃ s, s ∈ splits ∧ s !! "dataset" = Some dataset ∧
           s !! "config" = Some config ∧ s !! "split" = Some split.
Proof.
  intros Hsplits Hkeys. unfold get_new_splits.
  rewrite (getitem_Some _ _ _ Hsplits). simpl.
  by apply new_splits_of_spec.
Qed.

Lemma get_new_splits_identity_set_witness :
  ∃ new_splits : gset SplitFullName,
    get_new_splits {[ "splits" := [ split_item "glue" "cola" "train";
                                    split_item "glue" "sst2" "train";
                                    split_item "glue" "cola" "train" ] ]}
      = Return new_splits ∧
    ∀ dataset config split,
      (dataset, config, split) ∈ new_splits ↔
      ∃ s, s ∈ [ split_item "glue" "cola" "train";
                 split_item "glue" "sst2" "train";
                 split_item "glue" "cola" "train" ] ∧
           s !! "dataset" = Some dataset ∧
           s !! "config" = Some config ∧ s !! "split" = Some split.
Proof.
  apply get_new_splits_identity_set.
  - reflexivity.
  - repeat constructor; by eexists.
Defined.

(** Outside that shape the lookup raises [KeyError], as [d[key]] does. *)
Example get_new_splits_KeyError :
  get_new_splits ∅ = Raise (KeyError "splits") ∧
  get_new_splits {[ "splits" := [ {[ "dataset" := "glue" ]} ] ]}
    = Raise (KeyError "config").
Proof. split; reflexivity. Qed.

(** The items [get_dataset_split_full_names] builds have the three keys,
    so [get_new_splits] returns on every content that
    [compute_splits_response] returns. *)
Lemma compute_then_get_new_splits provider dataset hf_token content :
  compute_splits_response provider dataset hf_token = Return content →
  ∃ new_splits, get_new_splits content = Return new_splits.
Proof.
  destruct (get_dataset_split_full_names provider dataset (token_or_False hf_token))
    as [items|err] eqn:Hitems.
  - rewrite (compute_splits_response_Return _ _ _ _ Hitems).
    intros [= <-]. unfold get_new_splits.
    rewrite (getitem_Some _ "splits" items) by done. simpl.
    destruct (new_splits_of_spec items) as (new_splits & Hnew & _);
      [|by exists new_splits].
    apply get_dataset_split_full_names_Return in Hitems as (cs & _ & Hitems).
    apply Forall_forall.
    intros it (c & ss & s & _ & _ & _ & ->)%(elem_of_for_configs _ _ _ _ _ _ Hitems).
    by repeat split; eexists.
  - rewrite (compute_splits_response_Raise _ _ _ _ Hitems).
    by destruct (exc_isinstance_EmptyDatasetError err),
                (exc_isinstance_Exception err).
Qed.

End splits_facts.

(** * Properties of the queue statistics endpoint *)

Module queue_stats_facts.
Import JobQueue queue_stats examples.

(** ** Numbers in decimal *)

Lemma Z_range_forallb (P : Z → bool) (lo n : nat) :
  forallb P (Z.of_nat <$> seq lo n) = true →
  ∀ z : Z, (Z.of_nat lo ≤ z < Z.of_nat lo + Z.of_nat n)%Z → P z = true.
Proof.
  rewrite forallb_forall. intros HP z Hz. apply HP.
  apply list_elem_of_In, list_elem_of_fmap. exists (Z.to_nat z).
  split; [lia|]. apply elem_of_seq. lia.
Qed.

Lemma fmt_d_four_digits (y : Z) :
  (1000 ≤ y ≤ 9999)%Z →
  fmt_d y = String (digit (y / 1000)) (String (digit ((y / 100) `mod` 10))
           (String (digit ((y / 10) `mod` 10)) (String (digit (y `mod` 10)) ""))).
Proof.
  intros Hy. apply String.eqb_eq.
  apply (Z_range_forallb (λ y, String.eqb (fmt_d y)
           (String (digit (y / 1000)) (String (digit ((y / 100) `mod` 10))
           (String (digit ((y / 10) `mod` 10)) (String (digit (y `mod` 10)) "")))))
           (Z.to_nat 1000) (Z.to_nat 9000)); [by vm_compute|lia].
Qed.

Lemma fmt_02d_two_digits (n : Z) :
  (0 ≤ n ≤ 99)%Z →
  fmt_02d n = String (digit (n / 10)) (String (digit (n `mod` 10)) "").
Proof.
  intros Hn. apply String.eqb_eq.
  apply (Z_range_forallb (λ n, String.eqb (fmt_02d n)
           (String (digit (n / 10)) (String (digit (n `mod` 10)) "")))
           0 100); [by vm_compute|lia].
Qed.

Lemma is_nat_digit (k : Z) :
  (0 ≤ k ≤ 9)%Z → Ascii.is_nat (digit k) = Some (Z.to_nat k).
Proof.
  intros Hk.
  assert (k = 0 ∨ k = 1 ∨ k = 2 ∨ k = 3 ∨ k = 4 ∨ k = 5 ∨ k = 6 ∨ k = 7
          ∨ k = 8 ∨ k = 9)%Z as Hcases by lia.
  by repeat destruct Hcases as [->|Hcases]; [..|subst k].
Qed.

Lemma is_digit_digit (k : Z) : (0 ≤ k ≤ 9)%Z → is_digit (digit k) = true.
Proof.
  intros Hk. unfold is_digit. rewrite (is_nat_digit k Hk).
  rewrite bool_decide_eq_true. by eexists.
Qed.

(** ** [strftime] on the format of the endpoint *)

(** Quotients and remainders by ten are linear arithmetic for [lia]. *)
Local Ltac div_mod_lia := Z.to_euclidean_division_equations; lia.

Lemma strftime_format (t : struct_time) :
  strftime "%Y-%m-%dT%H:%M:%SZ" t =
  fmt_d (tm_year t) +:+ "-" +:+ fmt_02d (tm_mon t) +:+ "-" +:+
  fmt_02d (tm_mday t) +:+ "T" +:+ fmt_02d (tm_hour t) +:+ ":" +:+
  fmt_02d (tm_min t) +:+ ":" +:+ fmt_02d (tm_sec t) +:+ "Z".
Proof. reflexivity. Qed.

(** The twenty characters of the timestamp. *)
Lemma strftime_gmtime (t : struct_time) :
  gmtime_range t →
  strftime "%Y-%m-%dT%H:%M:%SZ" t =
  String (digit (tm_year t / 1000)) (String (digit ((tm_year t / 100) `mod` 10))
  (String (digit ((tm_year t / 10) `mod` 10)) (String (digit (tm_year t `mod` 10))
  (String "-" (String (digit (tm_mon t / 10)) (String (digit (tm_mon t `mod` 10))
  (String "-" (String (digit (tm_mday t / 10)) (String (digit (tm_mday t `mod` 10))
  (String "T" (String (digit (tm_hour t / 10)) (String (digit (tm_hour t `mod` 10))
  (String ":" (String (digit (tm_min t / 10)) (String (digit (tm_min t `mod` 10))
  (String ":" (String (digit (tm_sec t / 10)) (String (digit (tm_sec t `mod` 10))
  (String "Z" ""))))))))))))))))))).
Proof.
  intros (Hy & Hm & Hd & HH & HM & HS). rewrite strftime_format.
  rewrite (fmt_d_four_digits (tm_year t)) by lia.
  rewrite !fmt_02d_two_digits by lia. reflexivity.
Qed.

Lemma number_two_digits (a b : Z) :
  (0 ≤ a ≤ 9)%Z → (0 ≤ b ≤ 9)%Z →
  number (String (digit a) (String (digit b) "")) = Some (10 * a + b)%Z.
Proof.
  intros Ha Hb. unfold number. simpl.
  rewrite (is_nat_digit a Ha), (is_nat_digit b Hb). f_equal. lia.
Qed.

Lemma number_four_digits (a b c d : Z) :
  (0 ≤ a ≤ 9)%Z → (0 ≤ b ≤ 9)%Z → (0 ≤ c ≤ 9)%Z → (0 ≤ d ≤ 9)%Z →
  number (String (digit a) (String (digit b) (String (digit c) (String (digit d) ""))))
  = Some (1000 * a + 100 * b + 10 * c + d)%Z.
Proof.
  intros Ha Hb Hc Hd. unfold number. simpl.
  rewrite (is_nat_digit a Ha), (is_nat_digit b Hb),
    (is_nat_digit c Hc), (is_nat_digit d Hd). f_equal. lia.
Qed.

(** The timestamp has the ISO 8601 shape, and reads back as the time it
    was made from. *)
Lemma strftime_gmtime_iso8601 (t : struct_time) :
  gmtime_range t →
  is_iso8601_utc_seconds (strftime "%Y-%m-%dT%H:%M:%SZ" t) = true ∧
  parse_iso8601_utc_seconds (strftime "%Y-%m-%dT%H:%M:%SZ" t) = Some t.
Proof.
  intros Ht. rewrite (strftime_gmtime t Ht).
  destruct Ht as (Hy & Hm & Hd & HH & HM & HS).
  assert (is_iso8601_utc_seconds
    (String (digit (tm_year t / 1000)) (String (digit ((tm_year t / 100) `mod` 10))
    (String (digit ((tm_year t / 10) `mod` 10)) (String (digit (tm_year t `mod` 10))
    (String "-" (String (digit (tm_mon t / 10)) (String (digit (tm_mon t `mod` 10))
    (String "-" (String (digit (tm_mday t / 10)) (String (digit (tm_mday t `mod` 10))
    (String "T" (String (digit (tm_hour t / 10)) (String (digit (tm_hour t `mod` 10))
    (String ":" (String (digit (tm_min t / 10)) (String (digit (tm_min t `mod` 10))
    (String ":" (String (digit (tm_sec t / 10)) (String (digit (tm_sec t `mod` 10))
    (String "Z" "")))))))))))))))))))) = true) as Hshape.
  { unfold is_iso8601_utc_seconds, iso8601_pattern. cbn [matches].
    rewrite !is_digit_digit by div_mod_lia. reflexivity. }
  split; [done|].
  unfold parse_iso8601_utc_seconds. rewrite Hshape.
  cbn [String.substring].
  rewrite number_four_digits by div_mod_lia.
  rewrite !number_two_digits by div_mod_lia.
  cbn [mbind option_bind]. destruct t as [y m d H M S]. simpl in *.
  f_equal. f_equal; div_mod_lia.
Qed.

Example strftime_example :
  strftime "%Y-%m-%dT%H:%M:%SZ"
    {| tm_year := 2022; tm_mon := 11; tm_mday := 4; tm_hour := 9;
       tm_min := 5; tm_sec := 0 |} = "2022-11-04T09:05:00Z".
Proof. reflexivity. Qed.

(** ** The counts *)

Global Instance status_name_inj : Inj (=) (=) status_name.
Proof. by intros [] [] ?. Qed.

(** The count under a status is the number of jobs of the type in that
    status; an absent status stands for zero. *)
Lemma count_by_status_lookup (jt : string) (q : list Job) (st : Status) :
  default 0 (count_by_status jt q !! status_name st) = jobs_in_status jt st q.
Proof.
  unfold jobs_in_status. induction q as [|j q IH]; [done|].
  rewrite filter_cons. simpl.
  destruct (decide (job_type j = jt)) as [Hjt|Hjt].
  - destruct (decide (status j = st)) as [->|Hst].
    + rewrite lookup_insert_eq, decide_True by done. simpl. by rewrite IH.
    + rewrite lookup_insert_ne by (by intros ?%(inj _)).
      rewrite decide_False by tauto. done.
  - rewrite decide_False by tauto. done.
Qed.

(** The keys are names of statuses, and no count is zero. *)
Lemma count_by_status_keys (jt : string) (q : list Job) (k : string) (n : nat) :
  count_by_status jt q !! k = Some n →
  0 < n ∧ ∃ st, k = status_name st.
Proof.
  revert n. induction q as [|j q IH]; intros n; [done|]. simpl.
  destruct (decide (job_type j = jt)); [|by apply IH].
  destruct (decide (status_name (status j) = k)) as [<-|Hk].
  - rewrite lookup_insert_eq. intros [= <-]. split; [lia|by eexists].
  - rewrite lookup_insert_ne by done. apply IH.
Qed.

(** ** The response *)

Example stats_scenario (request : Request) :
  body (queue_stats_endpoint scenario_env request) =
  {[ "datasets" := Counts {[ "waiting" := 2; "success" := 1 ]};
     "splits" := Counts {[ "error" := 1 ]};
     "created_at" := Str "2022-11-04T09:05:00Z" ]}.
Proof. reflexivity. Qed.

(** C5. For every request, and every answer of [time.gmtime()] in the years
    1970 to 9999, the answer of the endpoint has status 200 and a body whose
    keys are exactly ["datasets"], ["splits"] and ["created_at"]; under the
    first two are the counts by status of the jobs of these two types, and
    under the third is the UTC time of the call written as
    [YYYY-MM-DDThh:mm:ssZ], to the second: it reads back as that time. *)
Theorem queue_stats_endpoint_response (env : Env) (request : Request) :
  gmtime_range (env_gmtime env) →
  status_code (queue_stats_endpoint env request) = 200%Z ∧
  dom (body (queue_stats_endpoint env request))
    = {[ "datasets"; "splits"; "created_at" ]} ∧
  (∃ counts,
     body (queue_stats_endpoint env request) !! "datasets" = Some (Counts counts) ∧
     ∀ st, default 0 (counts !! status_name st)
           = jobs_in_status "datasets" st (env_queue env)) ∧
  (∃ counts,
     body (queue_stats_endpoint env request) !! "splits" = Some (Counts counts) ∧
     ∀ st, default 0 (counts !! status_name st)
           = jobs_in_status "splits" st (env_queue env)) ∧
  (∃ created_at,
     body (queue_stats_endpoint env request) !! "created_at" = Some (Str created_at) ∧
     is_iso8601_utc_seconds created_at = true ∧
     parse_iso8601_utc_seconds created_at = Some (env_gmtime env)).
Proof.
  intros Hnow. split_and!.
  - done.
  - unfold queue_stats_endpoint, get_response. simpl.
    rewrite !dom_insert_L, dom_singleton_L. set_solver.
  - eexists. split; [done|]. intros st. apply count_by_status_lookup.
  - eexists. split; [done|]. intros st. apply count_by_status_lookup.
  - eexists. split; [done|]. by apply strftime_gmtime_iso8601.
Qed.

Lemma queue_stats_endpoint_response_witness :
  gmtime_range (env_gmtime scenario_env) ∧
  status_code (queue_stats_endpoint scenario_env (mkRequest "GET" "/queue" [])) = 200%Z.
Proof.
  assert (gmtime_range (env_gmtime scenario_env)) as Hnow.
  { unfold gmtime_range. simpl. lia. }
  split; [exact Hnow|].
  exact (proj1 (queue_stats_endpoint_response scenario_env
                  (mkRequest "GET" "/queue" []) Hnow)).
Defined.

End queue_stats_facts.

(** * Properties of the job queue *)

Module JobQueue_facts.
Import JobQueue examples.

Lemma job_key_set_status st j : job_key (set_status st j) = job_key j.
Proof. done. Qed.

Lemma claimable_live jt j : claimable jt j → live j.
Proof. intros [_ ?]. by left. Qed.

Lemma set_status_started_not_claimable jt j : ¬ claimable jt (set_status started j).
Proof. by intros [_ ?]. Qed.

Lemma tail_drop {A} (l : list A) (k : nat) : tail (drop k l) = drop (S k) l.
Proof.
  apply list_eq. intros i. rewrite lookup_tail, !lookup_drop. f_equal. lia.
Qed.

(** ** One [claim] *)

(** [claim] answers with the oldest claimable job, flipped to [started]. *)
Lemma claim_answer jt q :
  (claim jt q).1 = set_status started <$> head (filter (claimable jt) q).
Proof.
  induction q as [|j q IH]; [done|]. simpl. rewrite filter_cons.
  destruct (decide (claimable jt j)); [done|].
  destruct (claim jt q) as [r q']. done.
Qed.

(** After it the claimable jobs are the ones that were, but the oldest. *)
Lemma claim_claimable jt q :
  filter (claimable jt) (claim jt q).2 = tail (filter (claimable jt) q).
Proof.
  induction q as [|j q IH]; [done|]. simpl. rewrite filter_cons.
  destruct (decide (claimable jt j)) as [Hj|Hj]; simpl.
  - rewrite filter_cons_False; [done|]. apply set_status_started_not_claimable.
  - destruct (claim jt q) as [r q']. simpl in *. by rewrite filter_cons_False.
Qed.

(** It keeps the keys of the non-terminal jobs, hence the invariant. *)
Lemma claim_live_keys jt q :
  job_key <$> filter live (claim jt q).2 = job_key <$> filter live q.
Proof.
  induction q as [|j q IH]; [done|]. simpl.
  destruct (decide (claimable jt j)) as [Hj|Hj]; simpl.
  - by rewrite (filter_cons_True live j) by (by eapply claimable_live).
  - destruct (claim jt q) as [r q']. simpl in *. rewrite !filter_cons.
    destruct (decide (live j)); [|done]. by rewrite !fmap_cons, IH.
Qed.

Lemma claim_unique_live_keys jt q :
  unique_live_keys q → unique_live_keys (claim jt q).2.
Proof. unfold unique_live_keys. by rewrite claim_live_keys. Qed.

(** Under the invariant the claimable jobs have distinct keys. *)
Lemma claimable_keys_NoDup jt q :
  unique_live_keys q → NoDup (job_key <$> filter (claimable jt) q).
Proof.
  unfold unique_live_keys.
  assert (filter (claimable jt) q `sublist_of` filter live q) as Hsub.
  { induction q as [|j q IH]; [done|]. rewrite !filter_cons.
    destruct (decide (claimable jt j)) as [Hj|Hj].
    - rewrite decide_True by (by eapply claimable_live). by constructor.
    - destruct (decide (live j)); [by constructor|done]. }
  intros Hq. eapply sublist_NoDup; [done|]. by apply fmap_sublist.
Qed.

(** ** Concurrent callers *)

Lemma inv_init jt q n : inv jt q n (init q n).
Proof.
  unfold inv, init. simpl. split_and!; [done|done|constructor| |].
  - by intros ? ?%elem_of_nil.
  - rewrite size_list_to_set by apply NoDup_seq. by rewrite length_seq.
Qed.

Lemma inv_step jt q n s s' :
  inv jt q n s → step jt s s' → inv jt q n s'.
Proof.
  intros (Hqueue & Hanswers & Hnodup & Hpending & Hsize) Hstep.
  destruct Hstep as [s caller Hcaller]. unfold inv. simpl.
  rewrite length_app, !fmap_app. simpl.
  replace (length (returned s) + 1) with (S (length (returned s))) by lia.
  split_and!.
  - rewrite claim_claimable, Hqueue. apply tail_drop.
  - rewrite seq_S, fmap_app, <-Hanswers. simpl. f_equal. f_equal.
    by rewrite claim_answer, Hqueue, head_lookup, lookup_drop, Nat.add_0_r.
  - apply NoDup_app. split_and!; [done| |apply NoDup_singleton].
    intros c Hc Heq%list_elem_of_singleton. subst c.
    by apply (Hpending caller).
  - intros c [Hc|Heq%list_elem_of_singleton]%elem_of_app.
    + intros [Hin _]%elem_of_difference. by apply (Hpending c).
    + subst c. intros [_ Hnot]%elem_of_difference.
      apply Hnot. by apply elem_of_singleton.
  - assert ({[ caller ]} ⊆ pending s) as Hsub by (by apply singleton_subseteq_l).
    rewrite size_difference by done. rewrite size_singleton.
    apply subseteq_size in Hsub. rewrite size_singleton in Hsub. lia.
Qed.

Lemma inv_reachable jt q n s :
  rtc (step jt) (init q n) s → inv jt q n s.
Proof.
  revert s. apply rtc_ind_r.
  - apply inv_init.
  - intros s s' _ Hstep IH. by eapply inv_step.
Qed.

(** Every caller that has not returned can take its step. *)
Lemma step_progress jt s caller :
  caller ∈ pending s → ∃ s', step jt s s'.
Proof. intros Hcaller. eexists. by apply step_claim. Qed.

Lemma returned_lookup jt q n s p caller r :
  inv jt q n s →
  returned s !! p = Some (caller, r) →
  p < length (returned s) ∧
  r = set_status started <$> (filter (claimable jt) q !! p).
Proof.
  intros (_ & Hanswers & _) Hp.
  assert (p < length (returned s)) as Hlt by (by eapply lookup_lt_Some).
  split; [done|].
  assert ((returned s).*2 !! p = Some r) as Hr.
  { by rewrite list_lookup_fmap, Hp. }
  rewrite Hanswers, list_lookup_fmap, lookup_seq_lt in Hr by done.
  by injection Hr as <-.
Qed.

(** A call that returned, with enough claimable jobs for the [n] callers,
    returned one of them: the job at its place in the order of return. *)
Lemma returned_job jt q n s p caller r :
  inv jt q n s →
  (n ≤ length (filter (claimable jt) q))%nat →
  returned s !! p = Some (caller, r) →
  ∃ j, filter (claimable jt) q !! p = Some j ∧ r = Some (set_status started j).
Proof.
  intros Hinv Hn Hp.
  destruct (returned_lookup _ _ _ _ _ _ _ Hinv Hp) as [Hlt ->].
  destruct Hinv as (_ & _ & _ & _ & Hsize).
  destruct (lookup_lt_is_Some_2 (filter (claimable jt) q) p) as [j Hj]; [lia|].
  exists j. by rewrite Hj.
Qed.

(** C8. Let [n] callers call [claim] for a job type at the same time, on a
    queue that holds at least [n] waiting jobs of that type and, as the
    data model requires, at most one non-terminal job per key. In every
    state they can reach, whatever the order in which their calls take
    effect: each call that returned, returned a job of the queue that was
    waiting and of that type, now started; two calls of different callers
    returned different jobs; no job was returned to two callers; no caller
    returned twice; and the callers that returned and the callers still
    pending are the [n] callers. *)
Theorem claim_exclusive (jt : string) (q : list Job) (n : nat) (s : System) :
  unique_live_keys q →
  (n ≤ length (filter (claimable jt) q))%nat →
  rtc (step jt) (init q n) s →
  (∀ caller r, (caller, r) ∈ returned s →
     ∃ j, r = Some (set_status started j) ∧ j ∈ q ∧ claimable jt j) ∧
  (∀ c1 c2 j1 j2,
     (c1, Some j1) ∈ returned s → (c2, Some j2) ∈ returned s →
     c1 ≠ c2 → j1 ≠ j2 ∧ job_key j1 ≠ job_key j2) ∧
  (∀ c1 c2 j,
     (c1, Some j) ∈ returned s → (c2, Some j) ∈ returned s → c1 = c2) ∧
  NoDup (returned s).*1 ∧
  length (returned s) + size (pending s) = n.
Proof.
  intros Hunique Hn Hinv%inv_reachable.
  assert (∀ c1 c2 j1 j2,
     (c1, Some j1) ∈ returned s → (c2, Some j2) ∈ returned s →
     c1 ≠ c2 → job_key j1 ≠ job_key j2) as Hdistinct.
  { intros c1 c2 j1 j2 [p1 Hp1]%list_elem_of_lookup [p2 Hp2]%list_elem_of_lookup Hc Hkey.
    destruct (returned_job _ _ _ _ _ _ _ Hinv Hn Hp1) as (w1 & Hw1 & [= ->]).
    destruct (returned_job _ _ _ _ _ _ _ Hinv Hn Hp2) as (w2 & Hw2 & [= ->]).
    rewrite !job_key_set_status in Hkey.
    assert (p1 = p2) as ->.
    { eapply (NoDup_lookup _ _ _ _ (claimable_keys_NoDup jt q Hunique)).
      - by rewrite list_lookup_fmap, Hw1.
      - by rewrite list_lookup_fmap, Hw2, Hkey. }
    congruence. }
  split_and!.
  - intros caller r [p Hp]%list_elem_of_lookup.
    destruct (returned_job _ _ _ _ _ _ _ Hinv Hn Hp) as (j & Hj & ->).
    apply list_elem_of_lookup_2, list_elem_of_filter in Hj as [? ?].
    by exists j.
  - intros c1 c2 j1 j2 H1 H2 Hc.
    specialize (Hdistinct c1 c2 j1 j2 H1 H2 Hc). split; congruence.
  - intros c1 c2 j H1 H2. destruct (decide (c1 = c2)) as [|Hc]; [done|].
    by destruct (Hdistinct c1 c2 j j H1 H2 Hc).
  - by destruct Hinv as (_ & _ & ? & _).
  - by destruct Hinv as (_ & _ & _ & _ & ?).
Qed.

Lemma claim_exclusive_witness :
  ∃ s : System,
    rtc (step "/splits") (init two_waiting 2) s ∧
    returned s =
      [ (1, Some (mkJob "/splits" "squad" None None started));
        (0, Some (mkJob "/splits" "glue" None None started)) ] ∧
    ∀ c1 c2 j,
      (c1, Some j) ∈ returned s → (c2, Some j) ∈ returned s → c1 = c2.
Proof.
  pose (s1 := {| queue := (claim "/splits" two_waiting).2;
                 pending := pending (init two_waiting 2) ∖ {[ 1 ]};
                 returned := (returned (init two_waiting 2) ++
                              [(1, (claim "/splits" two_waiting).1)])%list |}).
  pose (s2 := {| queue := (claim "/splits" (queue s1)).2;
                 pending := pending s1 ∖ {[ 0 ]};
                 returned := (returned s1 ++
                              [(0, (claim "/splits" (queue s1)).1)])%list |}).
  assert (rtc (step "/splits") (init two_waiting 2) s2) as Hreach.
  { apply rtc_l with s1; [|apply rtc_once].
    - apply step_claim. vm_compute. set_solver.
    - apply step_claim. vm_compute. set_solver. }
  exists s2. split; [exact Hreach|]. split; [reflexivity|].
  apply (claim_exclusive "/splits" two_waiting 2 s2).
  - unfold unique_live_keys. simpl.
  refine (bool_decide_unpack _ _). vm_compute. exact I.
  - simpl. lia.
  - exact Hreach.
Defined.

(** ** The other operations keep the invariant *)

Lemma job_key_eta (k : JobKey) :
  job_key {| job_type := k.1.1.1; dataset := k.1.1.2; config := k.1.2;
             split := k.2; status := waiting |} = k.
Proof. by destruct k as [[[??]?]?]. Qed.

Lemma enqueue_unique_live_keys k q :
  unique_live_keys q → unique_live_keys (enqueue k q).2.
Proof.
  unfold unique_live_keys, enqueue. intros Hq.
  destruct (list_find _ q) as [[i j]|] eqn:Hfind; [done|]. simpl.
  apply list_find_None in Hfind.
  rewrite filter_app, fmap_app. simpl. rewrite job_key_eta.
  apply NoDup_app. split_and!; [done| |apply NoDup_singleton].
  intros k' (j & -> & [Hlive Hj]%list_elem_of_filter)%list_elem_of_fmap
         Heq%list_elem_of_singleton.
  rewrite Forall_forall in Hfind. by apply (Hfind j).
Qed.

(** An [enqueue] of a key that has a non-terminal job changes nothing. *)
Lemma enqueue_idempotent k q :
  (enqueue k (enqueue k q).2).2 = (enqueue k q).2.
Proof.
  unfold enqueue at 2 3.
  destruct (list_find _ q) as [[i j]|] eqn:Hfind; simpl.
  - unfold enqueue. by rewrite Hfind.
  - unfold enqueue.
    destruct (list_find _ (q ++ _)) as [[i j]|] eqn:Hfind'; [done|].
    apply list_find_None in Hfind'. rewrite Forall_app, Forall_singleton in Hfind'.
    destruct Hfind' as [_ []]. split; [apply job_key_eta|by left].
Qed.

Lemma finish_unique_live_keys k outcome q q' :
  outcome = success ∨ outcome = error →
  finish k outcome q = Some q' →
  unique_live_keys q → unique_live_keys q'.
Proof.
  unfold unique_live_keys. intros Houtcome Hfinish Hq.
  eapply sublist_NoDup; [exact Hq|]. apply fmap_sublist. clear Hq.
  revert q' Hfinish. induction q as [|j q IH]; intros q'; [done|]. simpl.
  destruct (decide (job_key j = k ∧ status j = started)) as [[_ Hj]|_].
  - intros [= <-]. rewrite filter_cons_False.
    + rewrite filter_cons_True by (by right). by apply sublist_cons.
    + unfold live. simpl. by destruct Houtcome as [-> | ->]; intros [|].
  - destruct (finish k outcome q) as [q''|]; [|done]. simpl.
    intros [= <-]. rewrite !filter_cons.
    destruct (decide (live j)); [apply sublist_skip|]; by apply IH.
Qed.

End JobQueue_facts.

(** * Properties of the healthcheck *)

Module healthcheck_facts.
Import healthcheck.

(** C6. The answer of [/healthcheck] passes [test_healthcheck], and a
    response that passes it has status 200 and the two characters [ok] as
    its whole body: no newline after them, and not the JSON string
    ["ok"] in its quotes. *)
Theorem healthcheck_ok :
  test_healthcheck healthcheck_endpoint = true ∧
  ∀ response : Response,
    test_healthcheck response = true →
    status_code response = 200%Z ∧
    text response = "ok" ∧
    String.length (text response) = 2 ∧
    ends_with_newline (text response) = false ∧
    text response ≠ json_string "ok".
Proof.
  split; [reflexivity|]. intros [status body]. unfold test_healthcheck. simpl.
  intros [Hstatus Hbody]%andb_true_iff.
  apply bool_decide_eq_true in Hstatus, Hbody. subst. by split_and!.
Qed.

Lemma healthcheck_ok_witness :
  status_code healthcheck_endpoint = 200%Z ∧ text healthcheck_endpoint = "ok".
Proof.
  destruct (proj2 healthcheck_ok healthcheck_endpoint) as (Hstatus & Hbody & _).
  - reflexivity.
  - exact (conj Hstatus Hbody).
Defined.

(** The test tells the three other bodies apart. *)
Example test_healthcheck_rejects :
  test_healthcheck {| status_code := 200; text := "ok" +:+ newline |} = false ∧
  test_healthcheck {| status_code := 200; text := json_string "ok" |} = false ∧
  test_healthcheck {| status_code := 500; text := "ok" |} = false.
Proof. by split_and!. Qed.

End healthcheck_facts.

(** * Further properties of the splits worker *)

Module splits_more_facts.
Import splits examples more splits_facts.

(** ** When the computation returns *)

(** X1. [compute_splits_response] returns a content exactly when the listing
    of the config names returns and the listing of the split names returns
    for every config name listed: one failing config fails the dataset. *)
Theorem compute_splits_response_returns_iff
    (provider : Provider) (dataset : string) (hf_token : option string) :
  (∃ content, compute_splits_response provider dataset hf_token = Return content) ↔
  ∃ config_names,
    get_dataset_config_names provider dataset (token_or_False hf_token)
      = Return config_names ∧
    ∀ config, config ∈ config_names →
      ∃ split_names,
        get_dataset_split_names provider dataset config (token_or_False hf_token)
          = Return split_names.
Proof.
  split.
  - intros [content Hcontent].
    destruct (get_dataset_split_full_names provider dataset (token_or_False hf_token))
      as [items|err] eqn:Hitems.
    + apply get_dataset_split_full_names_Return in Hitems as (cs & Hcs & Hitems).
      exists cs. split; [done|]. intros c Hc.
      apply for_configs_Return in Hitems as (sss & Hall & _).
      apply elem_of_sorted, list_elem_of_lookup in Hc as [i Hi].
      destruct (Forall2_lookup_l _ _ _ _ _ Hall Hi) as (ss & _ & Hss).
      by exists ss.
    + rewrite (compute_splits_response_Raise _ _ _ _ Hitems) in Hcontent.
      by destruct (exc_isinstance_EmptyDatasetError err),
                  (exc_isinstance_Exception err).
  - intros (cs & Hcs & Hall).
    destruct (for_configs_total provider dataset (token_or_False hf_token) (sorted cs))
      as [items Hitems].
    { intros c Hc%elem_of_sorted_1. by apply Hall. }
    exists {[ "splits" := items ]}.
    apply compute_splits_response_Return, get_dataset_split_full_names_Return.
    by exists cs.
Qed.

(** X2. [get_dataset_split_full_names] has no handler: it raises an exception
    exactly when it is the one of the first listing call that raises, the
    config names first and then the configs in sorted order, and it raises
    that exception itself. *)
Theorem get_dataset_split_full_names_raises_iff
    (provider : Provider) (dataset : string) (use_auth_token : auth_token)
    (err : Exception) :
  get_dataset_split_full_names provider dataset use_auth_token = Raise err ↔
  first_listing_error provider dataset use_auth_token err.
Proof. apply get_dataset_split_full_names_Raise. Qed.

(** ** What the list holds *)

(** X3. No split is left out: for every config name the provider listed and
    every split name it returned for that config, the item of the dataset,
    that config and that split is in the list. *)
Theorem get_dataset_split_full_names_complete
    (provider : Provider) (dataset : string) (use_auth_token : auth_token)
    (items : list SplitItem) (config_names split_names : list string)
    (config split : string) :
  get_dataset_split_full_names provider dataset use_auth_token = Return items →
  get_dataset_config_names provider dataset use_auth_token = Return config_names →
  config ∈ config_names →
  get_dataset_split_names provider dataset config use_auth_token
    = Return split_names →
  split ∈ split_names →
  split_item dataset config split ∈ items.
Proof.
  intros (cs & Hcs & Hitems)%get_dataset_split_full_names_Return Hcs' Hc Hss Hs.
  rewrite Hcs in Hcs'. injection Hcs' as <-.
  apply (elem_of_for_configs _ _ _ _ _ _ Hitems).
  exists config, split_names, split. split_and!; try done.
  by apply elem_of_sorted.
Qed.

Lemma get_dataset_split_full_names_complete_witness :
  split_item "glue" "sst2" "test" ∈
    [ split_item "glue" "cola" "train"; split_item "glue" "cola" "validation";
      split_item "glue" "cola" "test"; split_item "glue" "sst2" "train";
      split_item "glue" "sst2" "test" ].
Proof.
  apply (get_dataset_split_full_names_complete glue_provider "glue"
           (TokenBool false) _ ["sst2"; "cola"] ["train"; "test"] "sst2" "test").
  - exact glue_split_full_names.
  - reflexivity.
  - apply list_elem_of_here.
  - reflexivity.
  - apply list_elem_of_further, list_elem_of_here.
Defined.

Lemma for_configs_length (provider : Provider) (dataset : string)
    (use_auth_token : auth_token) (configs : list string)
    (items : list SplitItem) (sss : list (list string)) :
  for_configs provider dataset use_auth_token configs = Return items →
  Forall2 (λ c ss, get_dataset_split_names provider dataset c use_auth_token
                     = Return ss) configs sss →
  length items = sum_list (length <$> sss).
Proof.
  intros Hitems Hall. revert items Hitems.
  induction Hall as [|c ss cs sss Hss Hall IH]; intros items.
  - by intros [= <-].
  - intros (ss' & rest & Hss' & Hrest & ->)%for_configs_cons_inv.
    rewrite Hss in Hss'. injection Hss' as <-.
    rewrite length_app, length_fmap, (IH _ Hrest). done.
Qed.

(** The number of split names the provider returns for a config. *)
Lemma sum_list_splits (provider : Provider) (dataset : string)
    (use_auth_token : auth_token) (configs : list string)
    (sss : list (list string)) :
  Forall2 (λ c ss, get_dataset_split_names provider dataset c use_auth_token
                     = Return ss) configs sss →
  sum_list (length <$> sss) =
  sum_list_with (λ c, match get_dataset_split_names provider dataset c use_auth_token with
                      | Return ss => length ss
                      | Raise _ => 0
                      end) configs.
Proof.
  induction 1 as [|c ss cs sss Hss _ IH]; [done|].
  simpl. rewrite Hss. f_equal. exact IH.
Qed.

(** X4. The list has one item for each split name the provider returned: its
    length is the sum of the lengths of the lists of split names of the
    config names listed. *)
Theorem get_dataset_split_full_names_length
    (provider : Provider) (dataset : string) (use_auth_token : auth_token)
    (items : list SplitItem) (config_names : list string)
    (sss : list (list string)) :
  get_dataset_split_full_names provider dataset use_auth_token = Return items →
  get_dataset_config_names provider dataset use_auth_token = Return config_names →
  Forall2 (λ c ss, get_dataset_split_names provider dataset c use_auth_token
                     = Return ss) config_names sss →
  length items = sum_list (length <$> sss).
Proof.
  intros (cs & Hcs & Hitems)%get_dataset_split_full_names_Return Hcs' Hall.
  rewrite Hcs in Hcs'. injection Hcs' as <-.
  destruct (proj1 (for_configs_Return _ _ _ _ _) Hitems) as (sss' & Hall' & _).
  rewrite (for_configs_length _ _ _ _ _ _ Hitems Hall').
  rewrite (sum_list_splits _ _ _ _ _ Hall), (sum_list_splits _ _ _ _ _ Hall').
  by rewrite (sorted_Permutation cs).
Qed.

Lemma get_dataset_split_full_names_length_witness :
  length [ split_item "glue" "cola" "train"; split_item "glue" "cola" "validation";
           split_item "glue" "cola" "test"; split_item "glue" "sst2" "train";
           split_item "glue" "sst2" "test" ]
  = sum_list (length <$> [ ["train"; "test"]; ["train"; "validation"; "test"] ]).
Proof.
  apply (get_dataset_split_full_names_length glue_provider "glue"
           (TokenBool false) _ ["sst2"; "cola"]).
  - exact glue_split_full_names.
  - reflexivity.
  - repeat constructor.
Defined.

(** X5. A dataset none of whose configs has a split, or that has no config,
    is not an error: [compute_splits_response] returns the content with the
    empty list. *)
Theorem compute_splits_response_no_split
    (provider : Provider) (dataset : string) (hf_token : option string)
    (config_names : list string) :
  get_dataset_config_names provider dataset (token_or_False hf_token)
    = Return config_names →
  (∀ config, config ∈ config_names →
     get_dataset_split_names provider dataset config (token_or_False hf_token)
       = Return []) →
  compute_splits_response provider dataset hf_token = Return {[ "splits" := [] ]}.
Proof.
  intros Hcs Hnone.
  apply compute_splits_response_Return, get_dataset_split_full_names_Return.
  exists config_names. split; [done|].
  assert (∀ c, c ∈ sorted config_names →
    get_dataset_split_names provider dataset c (token_or_False hf_token) = Return [])
    as Hsorted.
  { intros c Hc%elem_of_sorted_1. by apply Hnone. }
  induction (sorted config_names) as [|c cs IH]; [done|].
  rewrite (for_configs_cons_Return _ _ _ c cs [] []); [done| |].
  - apply Hsorted. left.
  - apply IH. intros c' Hc'. apply Hsorted. by right.
Qed.

Lemma compute_splits_response_no_split_witness :
  compute_splits_response hollow_provider "hollow" None = Return {[ "splits" := [] ]}.
Proof.
  apply (compute_splits_response_no_split hollow_provider "hollow" None ["b"; "a"]).
  - reflexivity.
  - intros config _. reflexivity.
Defined.

(** X6. The content [compute_splits_response] returns has the one key
    ["splits"], so no ["stats"] field, and under it the list that
    [get_dataset_split_full_names] returns, each item of which has the
    three keys [get_new_splits] reads. *)
Theorem compute_splits_response_content
    (provider : Provider) (dataset : string) (hf_token : option string)
    (content : Content) :
  compute_splits_response provider dataset hf_token = Return content →
  dom content = {[ "splits" ]} ∧
  content !! "stats" = None ∧
  ∃ items,
    content !! "splits" = Some items ∧
    get_dataset_split_full_names provider dataset (token_or_False hf_token)
      = Return items ∧
    Forall has_split_keys items.
Proof.
  intros Hcontent.
  destruct (get_dataset_split_full_names provider dataset (token_or_False hf_token))
    as [items|err] eqn:Hitems.
  - rewrite (compute_splits_response_Return _ _ _ _ Hitems) in Hcontent.
    injection Hcontent as <-. split_and!.
    + by rewrite dom_singleton_L.
    + done.
    + exists items. split_and!; [done..|].
      apply get_dataset_split_full_names_Return in Hitems as (cs & _ & Hitems).
      apply Forall_forall.
      intros it (c & ss & s & _ & _ & _ & ->)%(elem_of_for_configs _ _ _ _ _ _ Hitems).
      by repeat split; eexists.
  - rewrite (compute_splits_response_Raise _ _ _ _ Hitems) in Hcontent.
    by destruct (exc_isinstance_EmptyDatasetError err),
                (exc_isinstance_Exception err).
Qed.

Lemma compute_splits_response_content_witness :
  dom ({[ "splits" := [] ]} : Content) = {[ "splits" ]}.
Proof.
  exact (proj1 (compute_splits_response_content hollow_provider "hollow" None _
                  eq_refl)).
Defined.

(** ** Order and repetition in the provider's answers *)

(** X7. The content does not depend on the order in which the provider
    lists the config names: two providers that list the same config names
    in different orders, and answer alike for the split names, give the same
    outcome. *)
Theorem compute_splits_response_listing_order
    (p1 p2 : Provider) (dataset : string) (hf_token : option string)
    (config_names1 config_names2 : list string) :
  get_dataset_config_names p1 dataset (token_or_False hf_token)
    = Return config_names1 →
  get_dataset_config_names p2 dataset (token_or_False hf_token)
    = Return config_names2 →
  config_names1 ≡ₚ config_names2 →
  (∀ config,
     get_dataset_split_names p1 dataset config (token_or_False hf_token) =
     get_dataset_split_names p2 dataset config (token_or_False hf_token)) →
  compute_splits_response p1 dataset hf_token =
  compute_splits_response p2 dataset hf_token.
Proof.
  intros Hcs1 Hcs2 Hperm Hsplits.
  by apply (compute_splits_response_Permutation p1 p2 dataset hf_token
              config_names1 config_names2).
Qed.

Lemma compute_splits_response_listing_order_witness :
  compute_splits_response glue_provider "glue" None =
  compute_splits_response glue_reordered "glue" None.
Proof.
  apply (compute_splits_response_listing_order glue_provider glue_reordered "glue"
           None ["sst2"; "cola"] ["cola"; "sst2"]).
  - reflexivity.
  - reflexivity.
  - apply Permutation_swap.
  - intros config. reflexivity.
Defined.

Local Instance split_item_inj (dataset config : string) :
  Inj (=) (=) (split_item dataset config).
Proof.
  intros s1 s2 Heq.
  assert (split_item dataset config s1 !! "split" =
          split_item dataset config s2 !! "split") as Hsplit by by rewrite Heq.
  rewrite !split_item_split in Hsplit. by injection Hsplit.
Qed.

Lemma for_configs_NoDup (provider : Provider) (dataset : string)
    (use_auth_token : auth_token) (configs : list string)
    (items : list SplitItem) :
  NoDup configs →
  (∀ c ss, c ∈ configs →
     get_dataset_split_names provider dataset c use_auth_token = Return ss →
     NoDup ss) →
  for_configs provider dataset use_auth_token configs = Return items →
  NoDup items.
Proof.
  intros Hconfigs. revert items.
  induction Hconfigs as [|c cs Hc Hcs IH]; intros items Hsplits.
  - intros [= <-]. constructor.
  - intros (ss & rest & Hss & Hrest & ->)%for_configs_cons_inv.
    apply NoDup_app. split_and!.
    + apply (NoDup_fmap_2 _). apply (Hsplits c); [left|done].
    + intros it (s & -> & _)%list_elem_of_fmap
                (c' & ss' & s' & Hc' & _ & _ & Heq)%(elem_of_for_configs _ _ _ _ _ _ Hrest).
      assert (item_config (split_item dataset c s) =
              item_config (split_item dataset c' s')) as Hconfig by by rewrite Heq.
      rewrite !item_config_split_item in Hconfig. by subst c'.
    + apply IH; [|done]. intros c' ss' Hc'. apply Hsplits. by right.
Qed.

(** X8. When the provider lists no config name twice and, for each config,
    no split name twice, the list has no item twice. *)
Theorem get_dataset_split_full_names_NoDup
    (provider : Provider) (dataset : string) (use_auth_token : auth_token)
    (items : list SplitItem) (config_names : list string) :
  get_dataset_split_full_names provider dataset use_auth_token = Return items →
  get_dataset_config_names provider dataset use_auth_token = Return config_names →
  NoDup config_names →
  (∀ config split_names, config ∈ config_names →
     get_dataset_split_names provider dataset config use_auth_token
       = Return split_names →
     NoDup split_names) →
  NoDup items.
Proof.
  intros (cs & Hcs & Hitems)%get_dataset_split_full_names_Return Hcs' Hnodup Hsplits.
  rewrite Hcs in Hcs'. injection Hcs' as <-.
  apply (for_configs_NoDup provider dataset use_auth_token (sorted cs));
    [| |exact Hitems].
  - by rewrite sorted_Permutation.
  - intros c ss Hc%elem_of_sorted_1. by apply Hsplits.
Qed.

Lemma get_dataset_split_full_names_NoDup_witness :
  NoDup [ split_item "glue" "cola" "train"; split_item "glue" "cola" "validation";
          split_item "glue" "cola" "test"; split_item "glue" "sst2" "train";
          split_item "glue" "sst2" "test" ].
Proof.
  apply (get_dataset_split_full_names_NoDup glue_provider "glue" (TokenBool false)
           _ ["sst2"; "cola"]).
  - exact glue_split_full_names.
  - reflexivity.
  - refine (bool_decide_unpack _ _). vm_compute. exact I.
  - intros config split_names
      [->|[->|[]%elem_of_nil]%elem_of_cons]%elem_of_cons [= <-];
      refine (bool_decide_unpack _ _); vm_compute; exact I.
Defined.

(** X9. The outcome of [compute_splits_response], content or error, depends
    on the provider only through its answers for this dataset, with the
    token given (or [False] for none), and for the config names it listed:
    two providers that agree on these give the same outcome. *)
Theorem compute_splits_response_agree
    (p1 p2 : Provider) (dataset : string) (hf_token : option string) :
  get_dataset_config_names p1 dataset (token_or_False hf_token) =
  get_dataset_config_names p2 dataset (token_or_False hf_token) →
  (∀ config_names config,
     get_dataset_config_names p1 dataset (token_or_False hf_token)
       = Return config_names →
     config ∈ config_names →
     get_dataset_split_names p1 dataset config (token_or_False hf_token) =
     get_dataset_split_names p2 dataset config (token_or_False hf_token)) →
  compute_splits_response p1 dataset hf_token =
  compute_splits_response p2 dataset hf_token.
Proof.
  intros Hconfigs Hsplits.
  assert (get_dataset_split_full_names p1 dataset (token_or_False hf_token) =
          get_dataset_split_full_names p2 dataset (token_or_False hf_token)) as Hnames.
  { unfold get_dataset_split_full_names. rewrite <-Hconfigs.
    destruct (get_dataset_config_names p1 dataset (token_or_False hf_token))
      as [cs|err] eqn:Hcs; [|done]. simpl.
    apply for_configs_agree. intros c Hc%elem_of_sorted_1. by apply (Hsplits cs). }
  unfold compute_splits_response. by rewrite Hnames.
Qed.

Lemma compute_splits_response_agree_witness :
  compute_splits_response glue_provider "glue" None =
  compute_splits_response glue_mirror "glue" None.
Proof.
  apply compute_splits_response_agree.
  - reflexivity.
  - intros config_names config [= <-]
      [->|[->|[]%elem_of_nil]%elem_of_cons]%elem_of_cons; reflexivity.
Defined.

(** ** [get_new_splits] *)

Lemma new_splits_of_has_split_keys (items : list SplitItem)
    (new_splits : gset SplitFullName) :
  new_splits_of items = Return new_splits → Forall has_split_keys items.
Proof.
  revert new_splits. induction items as [|s items IH]; intros new_splits; [done|].
  simpl. unfold getitem.
  destruct (s !! "dataset") as [d|] eqn:Hd; [|done].
  destruct (s !! "config") as [c|] eqn:Hc; [|done].
  destruct (s !! "split") as [sp|] eqn:Hsp; [|done]. simpl.
  destruct (new_splits_of items) as [rest|] eqn:Hrest; [|done].
  intros _. constructor; [|by eapply IH].
  unfold has_split_keys. by rewrite Hd, Hc, Hsp.
Qed.

(** X10. [get_new_splits] returns exactly on the contents that have a list
    under ["splits"] whose items each have the keys ["dataset"], ["config"]
    and ["split"]. *)
Theorem get_new_splits_returns_iff (content : Content) :
  (∃ new_splits, get_new_splits content = Return new_splits) ↔
  ∃ splits, content !! "splits" = Some splits ∧ Forall has_split_keys splits.
Proof.
  split.
  - intros [new_splits Hnew]. unfold get_new_splits, getitem in Hnew.
    destruct (content !! "splits") as [splits|]; [|done].
    exists splits. split; [done|]. by eapply new_splits_of_has_split_keys.
  - intros (splits & Hsplits & Hkeys). unfold get_new_splits.
    rewrite (getitem_Some _ _ _ Hsplits). simpl.
    destruct (new_splits_of_spec splits Hkeys) as (new_splits & Hnew & _).
    by exists new_splits.
Qed.

Lemma new_splits_of_KeyError (before after : list SplitItem) (s : SplitItem)
    (key : string) :
  Forall has_split_keys before →
  first_missing_key s = Some key →
  new_splits_of (before ++ s :: after) = Raise (KeyError key).
Proof.
  intros Hbefore Hkey.
  induction Hbefore as [|b before ([d Hd] & [c Hc] & [sp Hsp]) _ IH]; simpl.
  - unfold first_missing_key in Hkey. unfold getitem.
    destruct (s !! "dataset"); [|by injection Hkey as <-].
    destruct (s !! "config"); [|by injection Hkey as <-].
    destruct (s !! "split"); [done|by injection Hkey as <-].
  - rewrite (getitem_Some _ _ _ Hd), (getitem_Some _ _ _ Hc), (getitem_Some _ _ _ Hsp).
    simpl. by rewrite IH.
Qed.

(** X11. On any other content [get_new_splits] raises [KeyError]: of
    ["splits"] when the content lacks that key, and otherwise of the first
    key, in the order ["dataset"], ["config"], ["split"], that the first
    item lacking one lacks. *)
Theorem get_new_splits_KeyError_of (content : Content) :
  (content !! "splits" = None →
   get_new_splits content = Raise (KeyError "splits")) ∧
  (∀ before s after key,
     content !! "splits" = Some (before ++ s :: after)%list →
     Forall has_split_keys before →
     first_missing_key s = Some key →
     get_new_splits content = Raise (KeyError key)).
Proof.
  split.
  - intros Hnone. unfold get_new_splits. by rewrite (getitem_None _ _ Hnone).
  - intros before s after key Hsplits Hbefore Hkey. unfold get_new_splits.
    rewrite (getitem_Some _ _ _ Hsplits). simpl.
    by apply new_splits_of_KeyError.
Qed.

Lemma get_new_splits_KeyError_of_witness :
  get_new_splits {[ "splits" := [ split_item "glue" "cola" "train";
                                  {[ "dataset" := "glue"; "split" := "test" ]};
                                  ∅ ] ]}
  = Raise (KeyError "config").
Proof.
  apply (proj2 (get_new_splits_KeyError_of _) [split_item "glue" "cola" "train"]
           {[ "dataset" := "glue"; "split" := "test" ]} [∅] "config").
  - reflexivity.
  - repeat constructor; by eexists.
  - reflexivity.
Defined.

(** X12. The set [get_new_splits] returns does not depend on the order of
    the items nor on how often each occurs: two contents whose lists have
    the same items give the same set. *)
Theorem get_new_splits_same_items (content1 content2 : Content)
    (splits1 splits2 : list SplitItem) :
  content1 !! "splits" = Some splits1 →
  content2 !! "splits" = Some splits2 →
  Forall has_split_keys splits1 →
  (∀ s, s ∈ splits1 ↔ s ∈ splits2) →
  ∃ new_splits,
    get_new_splits content1 = Return new_splits ∧
    get_new_splits content2 = Return new_splits.
Proof.
  intros Hsplits1 Hsplits2 Hkeys1 Hsame.
  assert (Forall has_split_keys splits2) as Hkeys2.
  { rewrite Forall_forall in Hkeys1. apply Forall_forall.
    intros s Hs. by apply Hkeys1, Hsame. }
  destruct (new_splits_of_spec splits1 Hkeys1) as (new1 & Hnew1 & Hin1).
  destruct (new_splits_of_spec splits2 Hkeys2) as (new2 & Hnew2 & Hin2).
  exists new1. unfold get_new_splits.
  rewrite (getitem_Some _ _ _ Hsplits1), (getitem_Some _ _ _ Hsplits2). simpl.
  split; [done|]. rewrite Hnew2. f_equal. apply set_eq.
  intros [[d c] sp]. rewrite Hin1, Hin2. by setoid_rewrite Hsame.
Qed.

Lemma get_new_splits_same_items_witness :
  ∃ new_splits,
    get_new_splits {[ "splits" := [ split_item "glue" "cola" "train";
                                    split_item "glue" "sst2" "train";
                                    split_item "glue" "cola" "train" ] ]}
      = Return new_splits ∧
    get_new_splits {[ "splits" := [ split_item "glue" "sst2" "train";
                                    split_item "glue" "cola" "train" ] ]}
      = Return new_splits.
Proof.
  apply (get_new_splits_same_items _ _
           [ split_item "glue" "cola" "train"; split_item "glue" "sst2" "train";
             split_item "glue" "cola" "train" ]
           [ split_item "glue" "sst2" "train"; split_item "glue" "cola" "train" ]).
  - reflexivity.
  - reflexivity.
  - repeat constructor; by eexists.
  - intros s. rewrite !elem_of_cons, !elem_of_nil. tauto.
Defined.

(** ** [compute] followed by [get_new_splits] *)

(** On items that have the three keys the set is the one of their triples. *)
Lemma new_splits_of_list_to_set (items : list SplitItem) :
  Forall has_split_keys items →
  new_splits_of items = Return (list_to_set (item_triple <$> items)).
Proof.
  induction 1 as [|s items ([d Hd] & [c Hc] & [sp Hsp]) _ IH]; [done|].
  rewrite (new_splits_of_cons s items d c sp _ Hd Hc Hsp IH).
  rewrite fmap_cons, list_to_set_cons. unfold item_triple.
  by rewrite !lookup_total_alt, Hd, Hc, Hsp.
Qed.

(** X13. On the content that [compute_splits_response] returns,
    [get_new_splits] returns, and the set is the one of the triples of the
    dataset, a config name the provider listed and a split name the provider
    returned for that config. *)
Theorem get_new_splits_of_computed
    (provider : Provider) (dataset : string) (hf_token : option string)
    (content : Content) (config_names : list string) :
  compute_splits_response provider dataset hf_token = Return content →
  get_dataset_config_names provider dataset (token_or_False hf_token)
    = Return config_names →
  ∃ new_splits : gset SplitFullName,
    get_new_splits content = Return new_splits ∧
    ∀ d config split,
      (d, config, split) ∈ new_splits ↔
      d = dataset ∧ config ∈ config_names ∧
      ∃ split_names,
        get_dataset_split_names provider dataset config (token_or_False hf_token)
          = Return split_names ∧
        split ∈ split_names.
Proof.
  intros Hcontent Hcs.
  destruct (get_dataset_split_full_names provider dataset (token_or_False hf_token))
    as [items|err] eqn:Hitems.
  - rewrite (compute_splits_response_Return _ _ _ _ Hitems) in Hcontent.
    injection Hcontent as <-.
    apply get_dataset_split_full_names_Return in Hitems as (cs & Hcs' & Hitems).
    rewrite Hcs in Hcs'. injection Hcs' as <-.
    assert (Forall has_split_keys items) as Hkeys.
    { apply Forall_forall.
      intros it (c & ss & s & _ & _ & _ & ->)%(elem_of_for_configs _ _ _ _ _ _ Hitems).
      by repeat split; eexists. }
    destruct (new_splits_of_spec items Hkeys) as (new_splits & Hnew & Hin).
    exists new_splits. split.
    + unfold get_new_splits. by rewrite (getitem_Some _ "splits" items).
    + intros d c sp. rewrite Hin. split.
      * intros (it & (c' & ss & s & Hc' & Hss & Hs & ->)%(elem_of_for_configs _ _ _ _ _ _ Hitems)
                  & Hd & Hc & Hsp).
        rewrite split_item_dataset in Hd. rewrite split_item_config in Hc.
        rewrite split_item_split in Hsp.
        injection Hd as <-. injection Hc as <-. injection Hsp as <-.
        split_and!; [done|by apply elem_of_sorted|by exists ss].
      * intros (-> & Hc & ss & Hss & Hsp). exists (split_item dataset c sp).
        split_and!; [|done..].
        apply (elem_of_for_configs _ _ _ _ _ _ Hitems).
        exists c, ss, sp. split_and!; try done. by apply elem_of_sorted.
  - rewrite (compute_splits_response_Raise _ _ _ _ Hitems) in Hcontent.
    by destruct (exc_isinstance_EmptyDatasetError err),
                (exc_isinstance_Exception err).
Qed.

Lemma get_new_splits_of_computed_witness :
  ∃ new_splits : gset SplitFullName,
    get_new_splits {[ "splits" :=
      [ split_item "glue" "cola" "train"; split_item "glue" "cola" "validation";
        split_item "glue" "cola" "test"; split_item "glue" "sst2" "train";
        split_item "glue" "sst2" "test" ] ]} = Return new_splits ∧
    ∀ d config split,
      (d, config, split) ∈ new_splits ↔
      d = "glue" ∧ config ∈ ["sst2"; "cola"] ∧
      ∃ split_names,
        get_dataset_split_names glue_provider "glue" config (TokenBool false)
          = Return split_names ∧
        split ∈ split_names.
Proof.
  apply (get_new_splits_of_computed glue_provider "glue" None).
  - reflexivity.
  - reflexivity.
Defined.

(** X14. When the provider lists no config name twice and, for each config,
    no split name twice, the set [get_new_splits] returns on the computed
    content has as many members as the content has items. *)
Theorem get_new_splits_of_computed_size
    (provider : Provider) (dataset : string) (hf_token : option string)
    (content : Content) (config_names : list string) :
  compute_splits_response provider dataset hf_token = Return content →
  get_dataset_config_names provider dataset (token_or_False hf_token)
    = Return config_names →
  NoDup config_names →
  (∀ config split_names, config ∈ config_names →
     get_dataset_split_names provider dataset config (token_or_False hf_token)
       = Return split_names →
     NoDup split_names) →
  ∃ items (new_splits : gset SplitFullName),
    content !! "splits" = Some items ∧
    get_new_splits content = Return new_splits ∧
    size new_splits = length items.
Proof.
  intros Hcontent Hcs Hnodup Hsplits.
  destruct (get_dataset_split_full_names provider dataset (token_or_False hf_token))
    as [items|err] eqn:Hitems.
  - rewrite (compute_splits_response_Return _ _ _ _ Hitems) in Hcontent.
    injection Hcontent as <-.
    apply get_dataset_split_full_names_Return in Hitems as (cs & Hcs' & Hitems).
    rewrite Hcs in Hcs'. injection Hcs' as <-.
    assert (∀ it, it ∈ items → ∃ c s, it = split_item dataset c s) as Hshape.
    { intros it (c & ss & s & _ & _ & _ & ->)%(elem_of_for_configs _ _ _ _ _ _ Hitems).
      by exists c, s. }
    assert (Forall has_split_keys items) as Hkeys.
    { apply Forall_forall. intros it (c & s & ->)%Hshape.
      by repeat split; eexists. }
    assert (NoDup items) as Hitems_nodup.
    { apply (for_configs_NoDup provider dataset (token_or_False hf_token)
               (sorted config_names)); [| |exact Hitems].
      - by rewrite sorted_Permutation.
      - intros c ss Hc%elem_of_sorted_1. by apply Hsplits. }
    exists items, (list_to_set (item_triple <$> items)). split_and!.
    + done.
    + unfold get_new_splits. rewrite (getitem_Some _ "splits" items) by done.
      by apply new_splits_of_list_to_set.
    + rewrite size_list_to_set, length_fmap; [done|].
      apply NoDup_fmap_2_strong; [|done].
      intros it1 it2 (c1 & s1 & ->)%Hshape (c2 & s2 & ->)%Hshape.
      unfold item_triple, mkSplitFullName.
      change (split_item dataset c1 s1 !!! "config") with (item_config (split_item dataset c1 s1)).
      change (split_item dataset c2 s2 !!! "config") with (item_config (split_item dataset c2 s2)).
      change (split_item dataset c1 s1 !!! "split") with (item_split (split_item dataset c1 s1)).
      change (split_item dataset c2 s2 !!! "split") with (item_split (split_item dataset c2 s2)).
      rewrite !item_config_split_item, !item_split_split_item.
      by intros [= -> ->].
  - rewrite (compute_splits_response_Raise _ _ _ _ Hitems) in Hcontent.
    by destruct (exc_isinstance_EmptyDatasetError err),
                (exc_isinstance_Exception err).
Qed.

Lemma get_new_splits_of_computed_size_witness :
  ∃ items (new_splits : gset SplitFullName),
    ({[ "splits" :=
         [ split_item "glue" "cola" "train"; split_item "glue" "cola" "validation";
           split_item "glue" "cola" "test"; split_item "glue" "sst2" "train";
           split_item "glue" "sst2" "test" ] ]} : Content) !! "splits" = Some items ∧
    get_new_splits {[ "splits" :=
         [ split_item "glue" "cola" "train"; split_item "glue" "cola" "validation";
           split_item "glue" "cola" "test"; split_item "glue" "sst2" "train";
           split_item "glue" "sst2" "test" ] ]} = Return new_splits ∧
    size new_splits = length items.
Proof.
  apply (get_new_splits_of_computed_size glue_provider "glue" None _ ["sst2"; "cola"]).
  - reflexivity.
  - reflexivity.
  - refine (bool_decide_unpack _ _). vm_compute. exact I.
  - intros config split_names
      [->|[->|[]%elem_of_nil]%elem_of_cons]%elem_of_cons [= <-];
      refine (bool_decide_unpack _ _); vm_compute; exact I.
Defined.

End splits_more_facts.

(** * Further properties of the queue statistics endpoint *)

Module queue_stats_more_facts.
Import queue_stats examples more splits_facts queue_stats_facts.

Local Ltac div_mod_lia := Z.to_euclidean_division_equations; lia.

(** ** The order of the timestamps *)

Lemma N_of_ascii_digit (k : Z) :
  (0 ≤ k ≤ 9)%Z → N_of_ascii (digit k) = Z.to_N (48 + k).
Proof.
  intros Hk.
  assert (k = 0 ∨ k = 1 ∨ k = 2 ∨ k = 3 ∨ k = 4 ∨ k = 5 ∨ k = 6 ∨ k = 7
          ∨ k = 8 ∨ k = 9)%Z as Hcases by lia.
  by repeat destruct Hcases as [->|Hcases]; [..|subst k].
Qed.

Lemma digit_inj (a b : Z) :
  (0 ≤ a ≤ 9)%Z → (0 ≤ b ≤ 9)%Z → digit a = digit b → a = b.
Proof.
  intros Ha Hb Heq.
  assert (N_of_ascii (digit a) = N_of_ascii (digit b)) as HN by by rewrite Heq.
  rewrite !N_of_ascii_digit in HN by done. lia.
Qed.

Lemma str_le_same (c : ascii) (r1 r2 : string) :
  str_le (String c r1) (String c r2) ↔ str_le r1 r2.
Proof.
  rewrite str_le_cons. split; [|by right].
  intros [?%N.lt_irrefl|[_ ?]]; done.
Qed.

Lemma str_le_digit (a b : Z) (r1 r2 : string) :
  (0 ≤ a ≤ 9)%Z → (0 ≤ b ≤ 9)%Z →
  str_le (String (digit a) r1) (String (digit b) r2) ↔
  (a < b)%Z ∨ a = b ∧ str_le r1 r2.
Proof.
  intros Ha Hb. rewrite str_le_cons, !N_of_ascii_digit by done. split.
  - intros [Hlt|[Heq Hle]]; [left; lia|right].
    split; [by apply digit_inj|done].
  - intros [Hlt|[-> Hle]]; [left; lia|by right].
Qed.

(** Two numbers below a hundred, written with two digits, compare as
    strings the way they compare as numbers. *)
Lemma str_le_two_digits (n1 n2 : Z) (r1 r2 : string) :
  (0 ≤ n1 ≤ 99)%Z → (0 ≤ n2 ≤ 99)%Z →
  str_le (String (digit (n1 / 10)) (String (digit (n1 `mod` 10)) r1))
         (String (digit (n2 / 10)) (String (digit (n2 `mod` 10)) r2)) ↔
  (n1 < n2)%Z ∨ n1 = n2 ∧ str_le r1 r2.
Proof.
  intros Hn1 Hn2.
  rewrite str_le_digit by div_mod_lia. rewrite str_le_digit by div_mod_lia.
  split.
  - intros [Hlt|[Heq [Hlt|[Heq' Hle]]]].
    + left. div_mod_lia.
    + left. div_mod_lia.
    + right. split; [div_mod_lia|done].
  - intros [Hlt|[-> Hle]].
    + destruct (decide (n1 / 10 < n2 / 10)%Z); [by left|].
      right. split; [div_mod_lia|]. left. div_mod_lia.
    + right. split; [done|]. by right.
Qed.

(** And so for two numbers below ten thousand, written with four digits. *)
Lemma str_le_four_digits (y1 y2 : Z) (r1 r2 : string) :
  (0 ≤ y1 ≤ 9999)%Z → (0 ≤ y2 ≤ 9999)%Z →
  str_le
    (String (digit (y1 / 1000)) (String (digit ((y1 / 100) `mod` 10))
    (String (digit ((y1 / 10) `mod` 10)) (String (digit (y1 `mod` 10)) r1))))
    (String (digit (y2 / 1000)) (String (digit ((y2 / 100) `mod` 10))
    (String (digit ((y2 / 10) `mod` 10)) (String (digit (y2 `mod` 10)) r2)))) ↔
  (y1 < y2)%Z ∨ y1 = y2 ∧ str_le r1 r2.
Proof.
  intros Hy1 Hy2.
  replace (y1 / 1000)%Z with ((y1 / 100) / 10)%Z by div_mod_lia.
  replace (y2 / 1000)%Z with ((y2 / 100) / 10)%Z by div_mod_lia.
  replace ((y1 / 10) `mod` 10)%Z with ((y1 `mod` 100) / 10)%Z by div_mod_lia.
  replace ((y2 / 10) `mod` 10)%Z with ((y2 `mod` 100) / 10)%Z by div_mod_lia.
  replace (y1 `mod` 10)%Z with ((y1 `mod` 100) `mod` 10)%Z by div_mod_lia.
  replace (y2 `mod` 10)%Z with ((y2 `mod` 100) `mod` 10)%Z by div_mod_lia.
  rewrite str_le_two_digits by div_mod_lia.
  rewrite str_le_two_digits by div_mod_lia.
  split.
  - intros [Hlt|[Heq [Hlt|[Heq' Hle]]]].
    + left. div_mod_lia.
    + left. div_mod_lia.
    + right. split; [div_mod_lia|done].
  - intros [Hlt|[-> Hle]].
    + destruct (decide (y1 / 100 < y2 / 100)%Z); [by left|].
      right. split; [div_mod_lia|]. left. div_mod_lia.
    + right. split; [done|]. by right.
Qed.

(** X15. The timestamps sort as the times do: for two answers of
    [time.gmtime()] in the years 1970 to 9999, the [created_at] of the first
    is at most the [created_at] of the second, as Python compares strings,
    exactly when the first time is not after the second. *)
Theorem created_at_order (t1 t2 : struct_time) :
  gmtime_range t1 → gmtime_range t2 →
  str_le (strftime "%Y-%m-%dT%H:%M:%SZ" t1) (strftime "%Y-%m-%dT%H:%M:%SZ" t2) ↔
  chrono_le t1 t2.
Proof.
  intros Ht1 Ht2. rewrite (strftime_gmtime t1 Ht1), (strftime_gmtime t2 Ht2).
  destruct Ht1 as (Hy1 & Hm1 & Hd1 & HH1 & HM1 & HS1).
  destruct Ht2 as (Hy2 & Hm2 & Hd2 & HH2 & HM2 & HS2).
  unfold chrono_le.
  rewrite str_le_four_digits by lia. rewrite str_le_same.
  rewrite str_le_two_digits by lia. rewrite str_le_same.
  rewrite str_le_two_digits by lia. rewrite str_le_same.
  rewrite str_le_two_digits by lia. rewrite str_le_same.
  rewrite str_le_two_digits by lia. rewrite str_le_same.
  rewrite str_le_two_digits by lia. rewrite str_le_same.
  assert (str_le "" "" ↔ True) as -> by done.
  assert ((tm_sec t1 < tm_sec t2)%Z ∨ tm_sec t1 = tm_sec t2 ∧ True ↔
          (tm_sec t1 ≤ tm_sec t2)%Z) as -> by lia.
  reflexivity.
Qed.

Lemma created_at_order_witness :
  str_le "2022-11-04T09:05:00Z"
         (strftime "%Y-%m-%dT%H:%M:%SZ"
            {| tm_year := 2022; tm_mon := 11; tm_mday := 4; tm_hour := 10;
               tm_min := 0; tm_sec := 0 |}).
Proof.
  apply (created_at_order (env_gmtime scenario_env)).
  - unfold gmtime_range. simpl. lia.
  - unfold gmtime_range. simpl. lia.
  - unfold chrono_le. simpl. lia.
Defined.

End queue_stats_more_facts.
